(** * DTDA: the disease-target-drug agent of bioagents

    A shallow embedding of [bioagents/dtda/dtda.py]: term extraction, the two
    relation caches, the mutation matcher and the disease mutation
    aggregator, followed by the properties established about them.

    Conventions of the embedding.
    - Python [str] is [string]; the case operations are the ASCII ones
      (code points from 128 on are left alone).
    - Python [dict]s used as caches are [gmap]s, Python [set]s are [gset]s;
      [mutation_dict], whose insertion order is observable through the
      stable sort of [get_top_mutation], is an association list.
    - The floats that count records hold whole numbers and are [Z]; the
      quotients formed by the normalisation are exact rationals [Qc].  The
      numbers the specification quotes are checked in binary64 as well.
    - The external clients (statement database, cBioPortal) are the fields
      of a [Services] record over an abstract [World]; every call is logged
      in a trace so that "no query was issued" can be stated. *)

From Stdlib Require Import ZArith QArith Qcanon Qround Ascii String.
From Stdlib Require Import Floats.
From Stdlib Require Uint63.
From stdpp Require Import gmap strings list fin_maps sorting.

Local Open Scope string_scope.

(** ** Python string operations used by the agent *)

Module PyStr.

Definition is_upper (c : ascii) : bool :=
  let n := nat_of_ascii c in (65 <=? n)%nat && (n <=? 90)%nat.

Definition is_lower (c : ascii) : bool :=
  let n := nat_of_ascii c in (97 <=? n)%nat && (n <=? 122)%nat.

Definition is_digit (c : ascii) : bool :=
  let n := nat_of_ascii c in (48 <=? n)%nat && (n <=? 57)%nat.

Definition upper_char (c : ascii) : ascii :=
  if is_lower c then ascii_of_nat (nat_of_ascii c - 32) else c.

Definition lower_char (c : ascii) : ascii :=
  if is_upper c then ascii_of_nat (nat_of_ascii c + 32) else c.

Fixpoint map_chars (f : ascii -> ascii) (s : string) : string :=
  match s with
  | EmptyString => EmptyString
  | String c s' => String (f c) (map_chars f s')
  end.

(** [str.upper], [str.lower] *)
Definition upper (s : string) : string := map_chars upper_char s.
Definition lower (s : string) : string := map_chars lower_char s.

(** [str.capitalize]: first character upper-cased, the rest lower-cased *)
Definition capitalize (s : string) : string :=
  match s with
  | EmptyString => EmptyString
  | String c s' => String (upper_char c) (lower s')
  end.

(** [c in s] for a one-character [c] *)
Fixpoint contains_char (c : ascii) (s : string) : bool :=
  match s with
  | EmptyString => false
  | String d s' => if Ascii.eqb c d then true else contains_char c s'
  end.

(** [s.replace(c, '')] for a one-character [c] *)
Fixpoint remove_char (c : ascii) (s : string) : string :=
  match s with
  | EmptyString => EmptyString
  | String d s' =>
      if Ascii.eqb c d then remove_char c s' else String d (remove_char c s')
  end.

End PyStr.

(** ** Data model *)

(** A lookup key is the pair (identifier, namespace). *)
Abbreviation LookupKey := (string * string)%type.

(** INDRA's [MutCondition]; the position is kept as the string it is. *)
Record MutCondition := {
  position : string;
  residue_from : string;
  residue_to : string
}.

(** INDRA's [Agent], with the attributes the DTDA reads. *)
Record Agent := {
  name : string;
  db_refs : gmap string string;
  mutations : list MutCondition
}.

(** ** Term extraction *)

Definition hyphen : ascii := "-"%char.

(** [{(ref, ns) for ns, ref in agent.db_refs.items()}] *)
Definition db_ref_terms (refs : gmap string string) : gset LookupKey :=
  list_to_set ((λ p : string * string, (p.2, p.1)) <$> map_to_list refs).

Definition hyphen_terms (nm : string) : gset LookupKey :=
  if PyStr.contains_char hyphen nm
  then {[ (PyStr.remove_char hyphen nm, "TEXT") ]}
  else ∅.

Definition transforms : list (string → string) :=
  [PyStr.capitalize; PyStr.upper; PyStr.lower].

Definition _extract_terms (agent : Agent) : gset LookupKey :=
  let term_set := db_ref_terms (db_refs agent) in
  let term_set := term_set ∪ hyphen_terms (name agent) in
  foldl (λ acc opp, acc ∪ {[ (opp (name agent), "TEXT") ]}) term_set transforms.


(** ** Statements returned by the statement database *)

(** An [Inhibition] statement: subject, object, and the [source_api] of
    each piece of evidence. *)
Record Inhibition := {
  subj : Agent;
  obj : Agent;
  evidence : list string
}.

(** An [ActiveForm] statement: the agent and the polarity. *)
Record ActiveForm := {
  agent : Agent;
  is_active : bool
}.

(** The response of [get_statements(..., simple_response=False)]: either
    still working when the timeout expired, or the statements. *)
Inductive Response :=
  | Working
  | Statements (stmts : list Inhibition).

(** The columnar records of [cbio_client.get_mutations]. *)
Record Mutations := {
  gene_symbol : list string;
  amino_acid_change : list string
}.

(** ** The external collaborators *)

Class Services (World : Type) := {
  (** [get_statements(subject=, object=, stmt_type='Inhibition', timeout=10)] *)
  query_relations : option string → option string → World → Response * World;
  (** [get_statements(agents=[protein], stmt_type='ActiveForm')] *)
  query_active_forms : string → World → list ActiveForm * World;
  (** [cbio_client.get_cancer_studies(prefix)] *)
  get_cancer_studies : string → World → list string * World;
  (** [cbio_client.get_num_sequenced(study_id)] *)
  get_num_sequenced : string → World → Z * World;
  (** [cbio_client.get_mutations(study_id, gene_list, mutation_type)] *)
  get_mutations : string → list string → string → World → Mutations * World;
  (** the module-level table read from [cbio_efo_map.tsv] *)
  cbio_efo_map : gmap string (list string)
}.

(** What the agent asked of the outside, in order.  A relation query is
    logged with the terms [_get_tas_stmts] was given and with whether the
    database was still working at the timeout. *)
Inductive Event :=
  | EvRelations (drug_term target_term : option LookupKey) (timed_out : bool)
  | EvActiveForms (protein : string)
  | EvStudies (prefix : string)
  | EvNumSequenced (study_id : string) (n : Z)
  | EvMutations (study_id : string) (mutation_type : string).

#[global] Instance Event_eq_dec : EqDecision Event.
Proof. solve_decision. Defined.

(** ** The agent's state *)

Record DTDA := {
  sub_statements : gmap string (list ActiveForm);
  target_drugs : gmap LookupKey (gset (string * option string));
  drug_targets : gmap LookupKey (gset string)
}.

(** [DTDA.__init__] *)
Definition init : DTDA :=
  {| sub_statements := ∅; target_drugs := ∅; drug_targets := ∅ |}.

Inductive Exn :=
  | DrugNotFoundException
  | DiseaseNotFoundException
  | DatabaseTimeoutError
  | ZeroDivisionError
  | IndexError.

#[global] Instance Exn_eq_dec : EqDecision Exn.
Proof. solve_decision. Defined.

Inductive Result (A : Type) :=
  | Ok (a : A)
  | Raise (e : Exn).
Arguments Ok {A} a.
Arguments Raise {A} e.

Section Agent.

Context {World : Type} `{!Services World}.

Record Machine := {
  self : DTDA;
  world : World;
  trace : list Event
}.

(** A computation threads the machine and either returns or raises; what
    was written before a [raise] stays written. *)
Definition M (A : Type) : Type := Machine → Result A * Machine.

Definition ret {A} (a : A) : M A := λ m, (Ok a, m).

Definition raise {A} (e : Exn) : M A := λ m, (Raise e, m).

Definition bind {A B} (c : M A) (k : A → M B) : M B :=
  λ m, match c m with
       | (Ok a, m') => k a m'
       | (Raise e, m') => (Raise e, m')
       end.

(** [try: c  except e: h] *)
Definition try_except {A} (c : M A) (e : Exn) (h : M A) : M A :=
  λ m, match c m with
       | (Raise e', m') =>
           if decide (e' = e) then h m' else (Raise e', m')
       | r => r
       end.

Definition get_self : M DTDA := λ m, (Ok (self m), m).

Definition put_self (d : DTDA) : M unit :=
  λ m, (Ok tt, {| self := d; world := world m; trace := trace m |}).

(** Run an external call on the world and log it. *)
Definition external {A} (call : World → A * World) (ev : A → Event) : M A :=
  λ m, let '(a, w) := call (world m) in
       (Ok a, {| self := self m; world := w; trace := trace m ++ [ev a] |}).

End Agent.

Arguments Machine World : clear implicits.
Arguments M World A : clear implicits.

Declare Scope dtda_scope.
Delimit Scope dtda_scope with dtda.
Notation "'let!' x ':=' c 'in' k" := (bind c (λ x, k))
  (at level 10, x binder, c at level 100, k at level 200) : dtda_scope.
Notation "c ;; k" := (bind c (λ _, k))
  (at level 100, k at level 200, right associativity) : dtda_scope.
Local Open Scope dtda_scope.

Section Relations.

Context {World : Type} `{!Services World}.

(** ['%s@%s' % tuple(term)], or [None] *)
Definition _convert_term (term : option LookupKey) : option string :=
  (λ t : LookupKey, t.1 ++ "@" ++ t.2) <$> term.

Definition is_timeout (r : Response) : bool :=
  match r with Working => true | Statements _ => false end.

(** [any(ev.source_api == 'tas' for ev in s.evidence)] *)
Definition from_tas (s : Inhibition) : bool :=
  existsb (String.eqb "tas") (evidence s).

Definition _get_tas_stmts (drug_term target_term : option LookupKey)
  : M World (list Inhibition) :=
  let drug := _convert_term drug_term in
  let target := _convert_term target_term in
  let! resp := external (query_relations drug target)
                 (λ r, EvRelations drug_term target_term (is_timeout r)) in
  match resp with
  | Working => raise DatabaseTimeoutError
  | Statements stmts => ret (List.filter from_tas stmts)
  end.

Definition set_target_drugs (k : LookupKey) (v : gset (string * option string))
  : M World unit :=
  let! d := get_self in
  put_self {| sub_statements := sub_statements d;
              target_drugs := <[k := v]> (target_drugs d);
              drug_targets := drug_targets d |}.

Definition set_drug_targets (k : LookupKey) (v : gset string) : M World unit :=
  let! d := get_self in
  put_self {| sub_statements := sub_statements d;
              target_drugs := target_drugs d;
              drug_targets := <[k := v]> (drug_targets d) |}.

Definition set_sub_statements (k : string) (v : list ActiveForm) : M World unit :=
  let! d := get_self in
  put_self {| sub_statements := <[k := v]> (sub_statements d);
              target_drugs := target_drugs d;
              drug_targets := drug_targets d |}.

(** The empty [{}] returned on the two early exits is the empty result. *)
Definition find_target_drugs (target : Agent)
  : M World (gset (string * option string)) :=
  match db_refs target !! "HGNC" with
  | None => ret ∅
  | Some ref =>
      let target_term := (ref, "HGNC") in
      let! d := get_self in
      match target_drugs d !! target_term with
      | None =>
          try_except
            (let! stmts := _get_tas_stmts None (Some target_term) in
             let drugs : gset (string * option string) :=
               list_to_set
                 ((λ s, (name (subj s), db_refs (subj s) !! "PUBCHEM")) <$> stmts) in
             set_target_drugs target_term drugs ;;
             ret drugs)
            DatabaseTimeoutError
            (ret ∅)
      | Some drugs => ret drugs
      end
  end.

(** The body of [for term in drug_terms], with [all_targets] threaded. *)
Definition drug_targets_step (all_targets : gset string) (term : LookupKey)
  : M World (gset string) :=
  let! d := get_self in
  match drug_targets d !! term with
  | None =>
      try_except
        (let! tas_stmts := _get_tas_stmts (Some term) None in
         let targets : gset string :=
           list_to_set ((λ s, name (obj s)) <$> tas_stmts) in
         set_drug_targets term targets ;;
         ret (all_targets ∪ targets))
        DatabaseTimeoutError
        (ret all_targets)
  | Some targets => ret (all_targets ∪ targets)
  end.

Fixpoint for_each {A B} (body : A → B → M World A) (l : list B) (acc : A)
  : M World A :=
  match l with
  | [] => ret acc
  | x :: l' => let! acc' := body acc x in for_each body l' acc'
  end.

Definition find_drug_targets_over (drug_terms : list LookupKey)
  : M World (gset string) :=
  for_each drug_targets_step drug_terms ∅.

(** The iteration order of a Python set is not specified; the agent is
    run over [elements], and the lemmas about the loop hold for every
    enumeration. *)
Definition find_drug_targets (drug : Agent) : M World (gset string) :=
  let drug_terms := _extract_terms drug in
  find_drug_targets_over (elements drug_terms).

Definition is_nominal_drug_target (drug target : Agent) : M World bool :=
  let! targets := find_drug_targets drug in
  if decide (targets = ∅) then raise DrugNotFoundException
  else ret (bool_decide (name target ∈ targets)).

End Relations.

(** ** The mutation matcher *)

Inductive EffectLabel := activate | deactivate | other.

#[global] Instance EffectLabel_eq_dec : EqDecision EffectLabel.
Proof. solve_decision. Defined.

(** The longest prefix of digits, and what follows it. *)
Fixpoint span_digits (s : string) : string * string :=
  match s with
  | EmptyString => (EmptyString, EmptyString)
  | String c s' =>
      if PyStr.is_digit c
      then let '(ds, rest) := span_digits s' in (String c ds, rest)
      else (EmptyString, s)
  end.

(** [re.match(r'([A-Z])([0-9]+)([A-Z])', s)] and its three groups.  The
    match is tried at the start of [s] only and nothing is required of what
    follows the third group.  [[0-9]+] is greedy; giving digits back cannot
    help, since the character that would then have to be a letter is a
    digit. *)
Definition re_match_mutation (s : string) : option (string * string * string) :=
  match s with
  | EmptyString => None
  | String c s' =>
      if PyStr.is_upper c then
        match span_digits s' with
        | (EmptyString, _) => None
        | (ds, String d _) =>
            if PyStr.is_upper d
            then Some (String c EmptyString, ds, String d EmptyString)
            else None
        | (_, EmptyString) => None
        end
      else None
  end.

(** The loop [for stmt in self.sub_statements[protein_name]]. *)
Fixpoint match_statements (wt_residue pos sub_residue : string)
    (stmts : list ActiveForm) : option EffectLabel :=
  match stmts with
  | [] => None
  | stmt :: rest =>
      match mutations (agent stmt) with
      | [mut] =>
          if String.eqb (residue_from mut) wt_residue
             && String.eqb (position mut) pos
             && String.eqb (residue_to mut) sub_residue
          then if is_active stmt then Some activate else Some deactivate
          else match_statements wt_residue pos sub_residue rest
      | _ => match_statements wt_residue pos sub_residue rest
      end
  end.

Section Matcher.

Context {World : Type} `{!Services World}.

Definition find_mutation_effect (protein_name amino_acid_change : string)
  : M World (option EffectLabel) :=
  match re_match_mutation amino_acid_change with
  | None => ret None
  | Some (wt_residue, pos, sub_residue) =>
      let! d := get_self in
      let! stmts :=
        match sub_statements d !! protein_name with
        | None =>
            let! stmts := external (query_active_forms protein_name)
                            (λ _, EvActiveForms protein_name) in
            set_sub_statements protein_name stmts ;;
            ret stmts
        | Some stmts => ret stmts
        end in
      ret (match_statements wt_residue pos sub_residue stmts)
  end.

End Matcher.

(** ** The disease mutation aggregator *)

Local Open Scope Z_scope.

(** The three-key effect dictionary. *)
Record EffectDict (A : Type) := {
  on_activate : A;
  on_deactivate : A;
  on_other : A
}.
Arguments on_activate {A} e.
Arguments on_deactivate {A} e.
Arguments on_other {A} e.

(** [effect_dict[key] += 1] *)
Definition bump (key : EffectLabel) (e : EffectDict Z) : EffectDict Z :=
  match key with
  | activate =>
      {| on_activate := on_activate e + 1; on_deactivate := on_deactivate e;
         on_other := on_other e |}
  | deactivate =>
      {| on_activate := on_activate e; on_deactivate := on_deactivate e + 1;
         on_other := on_other e |}
  | other =>
      {| on_activate := on_activate e; on_deactivate := on_deactivate e;
         on_other := on_other e + 1 |}
  end.

Definition effect_zero : EffectDict Z :=
  {| on_activate := 0; on_deactivate := 0; on_other := 0 |}.

(** [numpy.sum(list(v[1].values()))] *)
Definition effect_sum (e : EffectDict Z) : Z :=
  on_activate e + on_deactivate e + on_other e.

(** [mutation_dict] while it is being filled: gene, then
    [[count, effect_dict]], in insertion order. *)
Abbreviation MutationDict := (list (string * (Z * EffectDict Z))).

Fixpoint dict_get {V} (d : list (string * V)) (k : string) : option V :=
  match d with
  | [] => None
  | (k', v) :: d' => if String.eqb k' k then Some v else dict_get d' k
  end.

(** [d[k] = v]: in place for a key that is there, at the end for a new one. *)
Fixpoint dict_set {V} (d : list (string * V)) (k : string) (v : V)
    : list (string * V) :=
  match d with
  | [] => [(k, v)]
  | (k', v') :: d' =>
      if String.eqb k' k then (k, v) :: d' else (k', v') :: dict_set d' k v
  end.

(** The [try]/[except KeyError] that records one mutation of gene [g]. *)
Definition record_mutation (mutation_dict : MutationDict) (g : string)
    (mutation_effect_key : EffectLabel) : MutationDict :=
  match dict_get mutation_dict g with
  | Some (n, effect_dict) =>
      dict_set mutation_dict g (n + 1, bump mutation_effect_key effect_dict)
  | None =>
      let effect_dict := bump mutation_effect_key effect_zero in
      dict_set mutation_dict g (1, effect_dict)
  end.

(** [l.count(g)] *)
Definition count (l : list string) (g : string) : nat :=
  length (List.filter (String.eqb g) l).

(** [max(x :: l, key=key)]: the first of the elements with the largest key. *)
Definition py_max {A} (key : A → nat) (x : A) (l : list A) : A :=
  foldl (λ best y, if (key best <? key y)%nat then y else best) x l.

(** A value produced by a numpy division, which does not raise. *)
Inductive NpFloat :=
  | Finite (q : Qc)
  | PosInf
  | NegInf
  | NaN.

(** Python's [float / int]; the caller has excluded a zero divisor. *)
Definition py_truediv (a b : Z) : Qc := Q2Qc (inject_Z a / inject_Z b)%Q.

(** [float / numpy.float64] *)
Definition np_truediv (a s : Z) : NpFloat :=
  if (s =? 0)%Z then
    if (a =? 0)%Z then NaN else if (0 <? a)%Z then PosInf else NegInf
  else Finite (py_truediv a s).

(** An entry of the returned mapping: case fraction and effect distribution. *)
Abbreviation Statistic := (Qc * EffectDict NpFloat)%type.

(** One round of the normalising loop. *)
Definition normalize_entry (num_case : Z) (v : Z * EffectDict Z)
    : Result Statistic :=
  if (num_case =? 0)%Z then Raise ZeroDivisionError
  else
    let effect_sum := effect_sum v.2 in
    Ok (py_truediv v.1 num_case,
        {| on_activate := np_truediv (on_activate v.2) effect_sum;
           on_deactivate := np_truediv (on_deactivate v.2) effect_sum;
           on_other := np_truediv (on_other v.2) effect_sum |}).

Fixpoint normalize (num_case : Z) (d : MutationDict)
    : Result (list (string * Statistic)) :=
  match d with
  | [] => Ok []
  | (k, v) :: d' =>
      match normalize_entry num_case v with
      | Raise e => Raise e
      | Ok v' =>
          match normalize num_case d' with
          | Raise e => Raise e
          | Ok r => Ok ((k, v') :: r)
          end
      end
  end.

Definition gene_lists : list (string * list string) :=
  [ ("rtk_signaling",
     ["EGFR"; "ERBB2"; "ERBB3"; "ERBB4"; "PDGFA"; "PDGFB";
      "PDGFRA"; "PDGFRB"; "KIT"; "FGF1"; "FGFR1"; "IGF1";
      "IGF1R"; "VEGFA"; "VEGFB"; "KDR"]);
    ("pi3k_signaling",
     ["PIK3CA"; "PIK3R1"; "PIK3R2"; "PTEN"; "PDPK1"; "AKT1";
      "AKT2"; "FOXO1"; "FOXO3"; "MTOR"; "RICTOR"; "TSC1"; "TSC2";
      "RHEB"; "AKT1S1"; "RPTOR"; "MLST8"]);
    ("mapk_signaling",
     ["KRAS"; "HRAS"; "BRAF"; "RAF1"; "MAP3K1"; "MAP3K2"; "MAP3K3";
      "MAP3K4"; "MAP3K5"; "MAP2K1"; "MAP2K2"; "MAP2K3"; "MAP2K4";
      "MAP2K5"; "MAPK1"; "MAPK3"; "MAPK4"; "MAPK6"; "MAPK7"; "MAPK8";
      "MAPK9"; "MAPK12"; "MAPK14"; "DAB2"; "RASSF1"; "RAB25"]) ].

Definition _get_gene_list : list string :=
  foldl (λ gene_list one_list, (gene_list ++ one_list)%list) [] (gene_lists.*2).

(** [sorted(items, key=key, reverse=True)]: descending and stable, so equal
    keys stay in their original order. *)
Fixpoint insert_desc {A} (key : A → Qc) (x : A) (l : list A) : list A :=
  match l with
  | [] => [x]
  | y :: l' =>
      if decide (key x < key y)%Qc then y :: insert_desc key x l'
      else x :: y :: l'
  end.

Definition sorted_reverse {A} (key : A → Qc) (l : list A) : list A :=
  foldr (insert_desc key) [] l.

(** [int(x)] on a float: truncation towards zero. *)
Definition py_int (x : Qc) : Z := Z.quot (Qnum x) (Z.pos (Qden x)).

Definition hundred : Qc := Q2Qc (inject_Z 100).

Section Aggregator.

Context {World : Type} `{!Services World}.

(** [list(set(study_ids))]: duplicates removed, order unspecified. *)
Definition _get_studies_from_disease_name (disease_name : string)
  : M World (option (list string)) :=
  match cbio_efo_map !! disease_name with
  | None => ret None
  | Some study_prefixes =>
      let! study_ids :=
        for_each
          (λ study_ids sp,
             let! found := external (get_cancer_studies sp) (λ _, EvStudies sp) in
             ret (study_ids ++ found)%list)
          study_prefixes [] in
      ret (Some (elements (list_to_set study_ids : gset string)))
  end.

(** The body of [for g, a in zip(...)]. *)
Definition record_step (top_gene : string) (mutation_dict : MutationDict)
    (ga : string * string) : M World MutationDict :=
  let '(g, a) := ga in
  if negb (String.eqb g top_gene) then ret mutation_dict
  else
    let! mutation_effect := find_mutation_effect g a in
    let mutation_effect_key :=
      match mutation_effect with
      | None => other
      | Some e => e
      end in
    ret (record_mutation mutation_dict g mutation_effect_key).

(** The body of [for study_id in study_ids], threading
    [(mutation_dict, num_case)]. *)
Definition study_step (gene_list : list string) (mutation_type : string)
    (acc : MutationDict * Z) (study_id : string)
  : M World (MutationDict * Z) :=
  let '(mutation_dict, num_case) := acc in
  let! n := external (get_num_sequenced study_id)
              (λ n, EvNumSequenced study_id n) in
  let num_case := num_case + n in
  let! mutations := external (get_mutations study_id gene_list mutation_type)
                      (λ _, EvMutations study_id mutation_type) in
  match gene_symbol mutations with
  | [] => ret (mutation_dict, num_case)
  | g0 :: gs =>
      let top_gene := py_max (count (gene_symbol mutations)) g0 gs in
      let! mutation_dict :=
        for_each (record_step top_gene)
          (zip (gene_symbol mutations) (amino_acid_change mutations))
          mutation_dict in
      ret (mutation_dict, num_case)
  end.

(** The study loop alone: the filled [mutation_dict] and [num_case]. *)
Definition collect (study_ids : list string) (mutation_type : string)
  : M World (MutationDict * Z) :=
  for_each (study_step _get_gene_list mutation_type) study_ids ([], 0).

Definition lift {A} (r : Result A) : M World A :=
  match r with Ok a => ret a | Raise e => raise e end.

Definition get_mutation_statistics (disease_name mutation_type : string)
  : M World (list (string * Statistic)) :=
  let! study_ids := _get_studies_from_disease_name disease_name in
  match study_ids with
  | None | Some [] => raise DiseaseNotFoundException
  | Some study_ids =>
      let! '(mutation_dict, num_case) := collect study_ids mutation_type in
      lift (normalize num_case mutation_dict)
  end.

(** [x is None] *)
Definition is_None {A} (x : option A) : bool :=
  match x with None => true | Some _ => false end.

(** [get_mutation_statistics] hands back a dict on every path that
    returns, so the value tested by [is None] is never [None]. *)
Definition get_top_mutation (disease_name : string)
  : M World (option (string * Z)) :=
  let! mutation_stats :=
    try_except (get_mutation_statistics disease_name "missense")
      DiseaseNotFoundException (raise DiseaseNotFoundException) in
  if is_None (Some mutation_stats) then ret None
  else
    let mutations_sorted :=
      sorted_reverse (λ x : string * Statistic, x.2.1) mutation_stats in
    match mutations_sorted with
    | [] => raise IndexError
    | top_mutation :: _ =>
        let mut_protein := top_mutation.1 in
        let mut_percent := py_int (top_mutation.2.1 * hundred)%Qc in
        ret (Some (mut_protein, mut_percent))
    end.

End Aggregator.

(** ** Fixtures

    A small scripted outside world.  The world is the number of external
    calls made so far; [down] says at which of them the statement database
    fails to answer in time. *)

Module Fixture.

Definition plain (nm : string) : Agent :=
  {| name := nm; db_refs := ∅; mutations := [] |}.

Definition vemurafenib : Agent :=
  {| name := "Vemurafenib";
     db_refs := {[ "PUBCHEM" := "42611257" ]};
     mutations := [] |}.

Definition braf : Agent :=
  {| name := "BRAF"; db_refs := {[ "HGNC" := "1097" ]}; mutations := [] |}.

Definition inhibits (d t : Agent) (src : string) : Inhibition :=
  {| subj := d; obj := t; evidence := [src] |}.

Definition relations (subject object : option string) : list Inhibition :=
  match subject, object with
  | Some "Vemurafenib@TEXT", None =>
      [inhibits vemurafenib braf "tas";
       inhibits vemurafenib (plain "MAP2K1") "reach"]
  | None, Some "1097@HGNC" =>
      [inhibits vemurafenib braf "tas";
       inhibits (plain "Sorafenib") braf "tas"]
  | _, _ => []
  end.

Definition mutant (protein wt pos sub : string) (active : bool) : ActiveForm :=
  {| agent := {| name := protein; db_refs := ∅;
                 mutations := [{| position := pos; residue_from := wt;
                                  residue_to := sub |}] |};
     is_active := active |}.

Definition double_mutant (protein wt pos sub : string) (active : bool)
  : ActiveForm :=
  {| agent := {| name := protein; db_refs := ∅;
                 mutations := [{| position := pos; residue_from := wt;
                                  residue_to := sub |};
                               {| position := pos; residue_from := wt;
                                  residue_to := sub |}] |};
     is_active := active |}.

Definition active_forms (protein : string) : list ActiveForm :=
  match protein with
  | "BRAF" => [double_mutant "BRAF" "V" "600" "E" false;
               mutant "BRAF" "V" "600" "E" true;
               mutant "BRAF" "V" "600" "E" false]
  | "TP53" => [mutant "TP53" "R" "175" "H" true;
               mutant "TP53" "R" "248" "Q" false;
               mutant "TP53" "R" "273" "H" false]
  | _ => []
  end.

Definition studies (prefix : string) : list string :=
  match prefix with
  | "paad" => ["paad_a"; "paad_b"]
  | "luad" => ["luad_a"; "luad_b"]
  | "quiet" => ["quiet_a"]
  | _ => []
  end.

Definition num_sequenced (study_id : string) : Z :=
  match study_id with
  | "paad_a" | "luad_a" => 5
  | "paad_b" | "luad_b" => 15
  | "quiet_a" => 7
  | _ => 0
  end.

Definition mutation_records (study_id : string) : Mutations :=
  match study_id with
  | "paad_a" =>
      {| gene_symbol := ["TP53"; "KRAS"; "TP53"; "TP53"];
         amino_acid_change := ["R175H"; "G12D"; "R248Q"; "R213*"] |}
  | "paad_b" =>
      {| gene_symbol := ["TP53"]; amino_acid_change := ["R273H"] |}
  | "luad_a" =>
      {| gene_symbol := ["TP53"; "TP53"; "TP53"; "TP53"];
         amino_acid_change := ["R175H"; "R248Q"; "R273H"; "R213*"] |}
  | "luad_b" =>
      {| gene_symbol := replicate 9 "KRAS";
         amino_acid_change := replicate 9 "G12D" |}
  | _ => {| gene_symbol := []; amino_acid_change := [] |}
  end.

Definition efo_map : gmap string (list string) :=
  {[ "pancreatic" := ["paad"]; "lung" := ["luad"];
     "quiet" := ["quiet"]; "unlisted" := ["nothing"] ]}.

Definition services (down : nat → bool) : Services nat :=
  {| query_relations subject object w :=
       (if down w then Working else Statements (relations subject object), S w);
     query_active_forms protein w := (active_forms protein, S w);
     get_cancer_studies prefix w := (studies prefix, S w);
     get_num_sequenced study_id w := (num_sequenced study_id, S w);
     get_mutations study_id _ _ w := (mutation_records study_id, S w);
     cbio_efo_map := efo_map |}.

Definition always_up : nat → bool := λ _, false.
Definition always_down : nat → bool := λ _, true.
Definition down_at_first : nat → bool := λ n, (n =? 0)%nat.

Definition start : Machine nat :=
  {| self := init; world := 0%nat; trace := [] |}.

End Fixture.

(** * Specification-side definitions

    What the properties below are stated with: the wording of the
    specification turned into definitions, the readings of the event log,
    and the postconditions of the loops. *)

(** ** Term extraction *)

(** The keys in the order [_extract_terms] adds them, repetitions kept. *)
Definition candidate_keys (a : Agent) : list LookupKey :=
  (((λ p : string * string, (p.2, p.1)) <$> map_to_list (db_refs a))
   ++ (if PyStr.contains_char hyphen (name a)
       then [(PyStr.remove_char hyphen (name a), "TEXT")] else [])
   ++ [(PyStr.capitalize (name a), "TEXT"); (PyStr.upper (name a), "TEXT");
       (PyStr.lower (name a), "TEXT")])%list.

Definition hyphen_count (a : Agent) : nat :=
  if PyStr.contains_char hyphen (name a) then 1%nat else 0%nat.

(** ** The mutation matcher *)

Fixpoint all_digits (s : string) : bool :=
  match s with
  | EmptyString => true
  | String c s' => PyStr.is_digit c && all_digits s'
  end.

(** What it means for a string to start with a substitution: a letter,
    digits, a letter, then anything. *)
Definition substitution_prefix (s wt pos sub : string) : Prop :=
  ∃ c ds d rest,
    s = String c (ds +:+ String d rest)
    ∧ PyStr.is_upper c = true
    ∧ ds ≠ EmptyString ∧ all_digits ds = true
    ∧ PyStr.is_upper d = true
    ∧ wt = String c EmptyString ∧ pos = ds ∧ sub = String d EmptyString.

(** The statements [find_mutation_effect] works on: the cached ones, or
    what the database answers now. *)
Definition retrieved `{!Services World} (protein_name : string)
    (m : Machine World) : list ActiveForm :=
  match sub_statements (self m) !! protein_name with
  | Some stmts => stmts
  | None => (query_active_forms protein_name (world m)).1
  end.

(** Specification side of the matching loop: drop what does not carry
    exactly one mutation, keep what carries the triple, take the first. *)
Definition exactly_one_mutation (stmt : ActiveForm) : bool :=
  (length (mutations (agent stmt)) =? 1)%nat.

Definition carries (wt pos sub : string) (stmt : ActiveForm) : bool :=
  match mutations (agent stmt) with
  | mut :: _ =>
      String.eqb (residue_from mut) wt && String.eqb (position mut) pos
      && String.eqb (residue_to mut) sub
  | [] => false
  end.

Definition polarity (stmt : ActiveForm) : EffectLabel :=
  if is_active stmt then activate else deactivate.

Definition first_match_effect (wt pos sub : string) (stmts : list ActiveForm)
    : option EffectLabel :=
  polarity <$> head (List.filter (carries wt pos sub)
                       (List.filter exactly_one_mutation stmts)).

(** ** The relation caches *)

(** The log entry of a drug-side relation query for key [K]. *)
Definition drug_query (K : LookupKey) (timed_out : bool) : Event :=
  EvRelations (Some K) None timed_out.

(** The log entry of a target-side relation query for key [K]. *)
Definition target_query (K : LookupKey) (timed_out : bool) : Event :=
  EvRelations None (Some K) timed_out.

Definition is_drug_query_for (K : LookupKey) (ev : Event) : bool :=
  match ev with
  | EvRelations (Some K') None _ => bool_decide (K' = K)
  | _ => false
  end.

(** The events a computation adds to the log when run from [m]. *)
Definition issued `{!Services World} {A} (c : M World A) (m : Machine World)
    : list Event :=
  drop (length (trace m)) (trace (c m).2).

Section Postconditions.

Context {World : Type} `{!Services World}.

Implicit Types (m : Machine World) (K : LookupKey) (terms : list LookupKey).

(** What one round establishes. *)
Record step_post (acc : gset string) K m (res : gset string)
    (evs : list Event) (m' : Machine World) : Prop := {
  step_trace : trace m' = (trace m ++ evs)%list;
  step_sub : sub_statements (self m') = sub_statements (self m);
  step_tgt : target_drugs (self m') = target_drugs (self m);
  step_hit : ∀ s, drug_targets (self m) !! K = Some s →
             evs = [] ∧ m' = m ∧ res = acc ∪ s;
  step_miss : drug_targets (self m) !! K = None →
              (evs = [drug_query K true]
               ∧ drug_targets (self m') = drug_targets (self m) ∧ res = acc)
              ∨ (∃ s, evs = [drug_query K false]
                      ∧ drug_targets (self m') = <[K := s]> (drug_targets (self m))
                      ∧ res = acc ∪ s)
}.

(** What the whole loop of [find_drug_targets] establishes, for keys
    enumerated without repetition in any order. *)
Record loop_post terms (acc : gset string) m (res : gset string)
    (evs : list Event) (m' : Machine World) : Prop := {
  loop_trace : trace m' = (trace m ++ evs)%list;
  loop_sub : sub_statements (self m') = sub_statements (self m);
  loop_tgt : target_drugs (self m') = target_drugs (self m);
  loop_only : ∀ ev, ev ∈ evs →
    ∃ K b, ev = drug_query K b ∧ K ∈ terms ∧ drug_targets (self m) !! K = None;
  loop_timeout : ∀ K, drug_query K true ∈ evs →
    drug_targets (self m') !! K = None;
  loop_success : ∀ K, drug_query K false ∈ evs →
    is_Some (drug_targets (self m') !! K);
  loop_asked : ∀ K, K ∈ terms → drug_targets (self m) !! K = None →
    ∃ b, drug_query K b ∈ evs;
  loop_keep : ∀ K s, drug_targets (self m) !! K = Some s →
    drug_targets (self m') !! K = Some s;
  loop_frame : ∀ K, K ∉ terms →
    drug_targets (self m') !! K = drug_targets (self m) !! K;
  loop_once : ∀ K,
    (length (List.filter (is_drug_query_for K) evs) ≤ 1)%nat;
  loop_result : ∀ x, x ∈ res ↔
    x ∈ acc ∨ ∃ K s, K ∈ terms ∧ drug_targets (self m') !! K = Some s ∧ x ∈ s;
  loop_quiet : evs = [] → m' = m
}.

End Postconditions.

(** ** The disease mutation aggregator *)

(** Specification side: the study identifiers listed for the prefixes, in
    the order the prefixes are asked. *)
Fixpoint listed_studies `{!Services World} (study_prefixes : list string)
    (w : World) : list string :=
  match study_prefixes with
  | [] => []
  | sp :: rest =>
      let '(found, w') := get_cancer_studies sp w in
      (found ++ listed_studies rest w')%list
  end.

(** Specification side: the study set the disease resolves to. *)
Definition resolved_studies `{!Services World} (study_prefixes : list string)
    (m : Machine World) : list string :=
  elements (list_to_set (listed_studies study_prefixes (world m)) : gset string).

(** The sequenced-case counts read off a log: study and count. *)
Definition sequenced (evs : list Event) : list (string * Z) :=
  omap (λ ev, match ev with
              | EvNumSequenced study_id n => Some (study_id, n)
              | _ => None
              end) evs.

Definition Zsum (l : list Z) : Z := foldr Z.add 0 l.

(** An entry of [mutation_dict] as the loop keeps it: every recorded
    mutation went to one bucket. *)
Definition tallied (v : Z * EffectDict Z) : Prop :=
  0 ≤ on_activate v.2 ∧ 0 ≤ on_deactivate v.2 ∧ 0 ≤ on_other v.2
  ∧ effect_sum v.2 = v.1 ∧ 1 ≤ effect_sum v.2.

Definition is_finite (x : NpFloat) : Prop :=
  match x with Finite _ => True | _ => False end.

Definition finite_distribution (e : EffectDict NpFloat) : Prop :=
  is_finite (on_activate e) ∧ is_finite (on_deactivate e)
  ∧ is_finite (on_other e).

(** Specification side of the normalising step, with the divisions written
    out. *)
Definition normalized (num_case : Z) (v : Z * EffectDict Z) : Statistic :=
  (py_truediv v.1 num_case,
   {| on_activate := np_truediv (on_activate v.2) (effect_sum v.2);
      on_deactivate := np_truediv (on_deactivate v.2) (effect_sum v.2);
      on_other := np_truediv (on_other v.2) (effect_sum v.2) |}).

(** The same divisions carried out in binary64, as Python and numpy do
    them on floats that hold counts. *)
Definition f64_of_count (n : Z) : float := PrimFloat.of_uint63 (Uint63.of_Z n).

Definition normalized_binary64 (num_case : Z) (v : Z * EffectDict Z)
    : float * EffectDict float :=
  let a := f64_of_count (on_activate v.2) in
  let d := f64_of_count (on_deactivate v.2) in
  let o := f64_of_count (on_other v.2) in
  let effect_sum := PrimFloat.add (PrimFloat.add a d) o in
  (PrimFloat.div (f64_of_count v.1) (f64_of_count num_case),
   {| on_activate := PrimFloat.div a effect_sum;
      on_deactivate := PrimFloat.div d effect_sum;
      on_other := PrimFloat.div o effect_sum |}).

(** [top_mutation[1][0]*100.0] in binary64, for a fraction [n / num_case]. *)
Definition percent_binary64 (n num_case : Z) : float :=
  PrimFloat.mul (PrimFloat.div (f64_of_count n) (f64_of_count num_case))
    (f64_of_count 100).

(** Specification side of the ranking: the first of the entries with the
    largest key. *)
Definition top_entry {A} (key : A → Qc) (l : list A) : option A :=
  foldr (λ x best,
           match best with
           | Some y => if decide (key x < key y)%Qc then Some y else Some x
           | None => Some x
           end) None l.

(** * Further code of the repository *)

(** ** The disease table loader *)

(** More of Python's [str], for code points below 256. *)
Module PyText.

(** [c.isspace()] *)
Definition is_space (c : ascii) : bool :=
  let n := nat_of_ascii c in
  ((9 <=? n)%nat && (n <=? 13)%nat) || ((28 <=? n)%nat && (n <=? 32)%nat)
  || (n =? 133)%nat || (n =? 160)%nat.

Fixpoint lstrip (s : string) : string :=
  match s with
  | EmptyString => EmptyString
  | String c s' => if is_space c then lstrip s' else s
  end.

Fixpoint rstrip (s : string) : string :=
  match s with
  | EmptyString => EmptyString
  | String c s' =>
      match rstrip s' with
      | EmptyString => if is_space c then EmptyString else String c EmptyString
      | r => String c r
      end
  end.

(** [s.strip()] *)
Definition strip (s : string) : string := rstrip (lstrip s).

(** The first field of [s] and the fields after it. *)
Fixpoint split_fields (sep : ascii) (s : string) : string * list string :=
  match s with
  | EmptyString => (EmptyString, [])
  | String c s' =>
      let '(f, fs) := split_fields sep s' in
      if Ascii.eqb c sep then (EmptyString, f :: fs) else (String c f, fs)
  end.

(** [s.split(sep)] for a one-character [sep] *)
Definition split (sep : ascii) (s : string) : list string :=
  let '(f, fs) := split_fields sep s in f :: fs.

End PyText.

Definition tab : ascii := ascii_of_nat 9.

(** [cbio_id, efo_id = lin.strip().split('\t')]; [None] stands for the
    [ValueError] of an unpacking that does not find exactly two fields. *)
Definition parse_line (lin : string) : option (string * string) :=
  match PyText.split tab (PyText.strip lin) with
  | [cbio_id; efo_id] => Some (cbio_id, efo_id)
  | _ => None
  end.

(** The loop of [_make_cbio_efo_map] over the lines read. *)
Fixpoint load_lines (lines : list string) (cbio_efo_map : gmap string (list string))
    : option (gmap string (list string)) :=
  match lines with
  | [] => Some cbio_efo_map
  | lin :: lines' =>
      match parse_line lin with
      | None => None
      | Some (cbio_id, efo_id) =>
          load_lines lines'
            match cbio_efo_map !! efo_id with
            | Some ids => <[efo_id := (ids ++ [cbio_id])%list]> cbio_efo_map
            | None => <[efo_id := [cbio_id]]> cbio_efo_map
            end
      end
  end.

(** [_make_cbio_efo_map], given what [readlines] returned. *)
Definition _make_cbio_efo_map (lines : list string)
    : option (gmap string (list string)) :=
  load_lines lines ∅.

(** ** The reference chosen by [respond_find_immediate_relation] *)

Module MSA.

(** [{'name': agent.name}] updated with [agent.db_refs] *)
Definition ref_dict_of (agent : Agent) : gmap string string :=
  db_refs agent ∪ {[ "name" := name agent ]}.

Definition ref_keys : list string := ["HGNC"; "FPLX"; "CHEBI"; "name"; "TEXT"].

(** The inner loop over [ref_keys]: every key that is present overwrites
    [input_dict[pos]]. *)
Definition input_ref (ref_dict : gmap string string) : option string :=
  foldl (λ chosen key,
           match ref_dict !! key with
           | Some v => Some v
           | None => chosen
           end) None ref_keys.

(** [input_dict[pos]] for an entity that converted to [agent], or to none. *)
Definition input_for (agent : option Agent) : option string :=
  match agent with
  | None => None
  | Some a => input_ref (ref_dict_of a)
  end.

End MSA.

(** ** Specification side of the further properties *)

Fixpoint count_char (c : ascii) (s : string) : nat :=
  match s with
  | EmptyString => 0%nat
  | String d s' => ((if Ascii.eqb d c then 1 else 0) + count_char c s')%nat
  end.

(** The identifiers filed under [efo_id], in the order of the lines. *)
Definition filed_under (efo_id : string) (pairs : list (string * string))
    : list string :=
  (List.filter (λ p : string * string, String.eqb p.2 efo_id) pairs).*1.

(** The keys of a dictionary kept as an association list. *)
Definition dict_keys {V} (d : list (string * V)) : list string := d.*1.

(** ** Further fixtures *)

(** The fixture world with studies that report no sequenced case. *)
Definition unsequenced_services : Services nat :=
  {| query_relations subject object w :=
       (Statements (Fixture.relations subject object), S w);
     query_active_forms protein w := (Fixture.active_forms protein, S w);
     get_cancer_studies prefix w := (Fixture.studies prefix, S w);
     get_num_sequenced study_id w := (0, S w);
     get_mutations study_id _ _ w := (Fixture.mutation_records study_id, S w);
     cbio_efo_map := Fixture.efo_map |}.

(** The mutated-case count the dictionary holds for a gene, zero for a gene
    that is not in it. *)
Definition case_count (d : MutationDict) (g : string) : Z :=
  match dict_get d g with
  | Some v => v.1
  | None => 0
  end.

(** The entry the table has for [efo_id] once the pairs are filed: the
    identifiers filed under it, or no entry when there is none. *)
Definition table_entry (efo_id : string) (pairs : list (string * string))
    : option (list string) :=
  match filed_under efo_id pairs with
  | [] => None
  | ids => Some ids
  end.

(** A line of the resource file as [readlines] returns it. *)
Definition tsv_line (cbio_id efo_id : string) : string :=
  cbio_id +:+ String tab (efo_id +:+ String (ascii_of_nat 10) EmptyString).

(** * Properties *)

(** ** Term extraction *)

Lemma extract_terms_candidates (a : Agent) :
  _extract_terms a = list_to_set (candidate_keys a).
Proof.
  unfold _extract_terms, candidate_keys, hyphen_terms, db_ref_terms, transforms.
  simpl. rewrite !list_to_set_app_L, !list_to_set_cons, list_to_set_nil.
  rewrite union_empty_r_L, <- !(assoc_L (∪)). f_equal. f_equal.
  destruct (PyStr.contains_char hyphen (name a)); simpl.
  - by rewrite union_empty_r_L.
  - done.
Qed.

Lemma length_candidate_keys (a : Agent) :
  length (candidate_keys a) = (3 + size (db_refs a) + hyphen_count a)%nat.
Proof.
  unfold candidate_keys, hyphen_count.
  rewrite !length_app, length_fmap, length_map_to_list.
  destruct (PyStr.contains_char hyphen (name a)); simpl; lia.
Qed.

Lemma size_list_to_set_le (l : list LookupKey) :
  (size (list_to_set l : gset LookupKey) ≤ length l)%nat.
Proof.
  induction l as [|x l IH].
  - rewrite list_to_set_nil, size_empty. simpl. lia.
  - rewrite list_to_set_cons. simpl length. destruct (decide (x ∈ l)) as [Hin|Hnin].
    + rewrite (subseteq_union_1_L {[x]} (list_to_set l))
        by (by apply singleton_subseteq_l, elem_of_list_to_set).
      lia.
    + rewrite size_union
        by (by apply disjoint_singleton_l; rewrite elem_of_list_to_set).
      rewrite size_singleton. lia.
Qed.

Lemma size_list_to_set_NoDup (l : list LookupKey) :
  size (list_to_set l : gset LookupKey) = length l ↔ NoDup l.
Proof.
  split; [|apply size_list_to_set].
  induction l as [|x l IH]; [constructor|].
  rewrite list_to_set_cons. simpl length.
  intros Hsz. destruct (decide (x ∈ l)) as [Hin|Hnin].
  - rewrite (subseteq_union_1_L {[x]} (list_to_set l)) in Hsz
      by (by apply singleton_subseteq_l, elem_of_list_to_set).
    pose proof (size_list_to_set_le l). lia.
  - constructor; [done|]. apply IH.
    rewrite size_union, size_singleton in Hsz
      by (by apply disjoint_singleton_l; rewrite elem_of_list_to_set).
    lia.
Qed.

(** C3 (as amended).  The extracted key set is exactly the namespace keys,
    the hyphen-stripped free-text key when the name has a hyphen, and the
    capitalize/upper/lower free-text keys.  Keys that coincide collapse, so
    the cardinality is at most [3 + |db_refs| + (1 if hyphenated else 0)],
    and it reaches that number exactly when the keys are pairwise
    distinct. *)
Theorem extract_terms_exact (a : Agent) :
  (∀ k : LookupKey,
     k ∈ _extract_terms a ↔
       (∃ ns ref, db_refs a !! ns = Some ref ∧ k = (ref, ns))
       ∨ (PyStr.contains_char hyphen (name a) = true
          ∧ k = (PyStr.remove_char hyphen (name a), "TEXT"))
       ∨ k = (PyStr.capitalize (name a), "TEXT")
       ∨ k = (PyStr.upper (name a), "TEXT")
       ∨ k = (PyStr.lower (name a), "TEXT"))
  ∧ (size (_extract_terms a) ≤ 3 + size (db_refs a) + hyphen_count a)%nat
  ∧ (size (_extract_terms a) = (3 + size (db_refs a) + hyphen_count a)%nat
     ↔ NoDup (candidate_keys a)).
Proof.
  rewrite extract_terms_candidates, <- length_candidate_keys.
  split; [|split].
  - intros k. rewrite elem_of_list_to_set. unfold candidate_keys.
    rewrite !elem_of_app, list_elem_of_fmap.
    split.
    + intros [[[ns ref] [-> Hin]]|[Hh|Ht]].
      * left. exists ns, ref. by apply elem_of_map_to_list in Hin.
      * right. left.
        destruct (PyStr.contains_char hyphen (name a)); [|by inversion Hh].
        apply list_elem_of_singleton in Hh. done.
      * right. right.
        apply elem_of_cons in Ht as [->|Ht]; [by left|].
        apply elem_of_cons in Ht as [->|Ht]; [right; by left|].
        apply list_elem_of_singleton in Ht. subst. right. by right.
    + intros [(ns & ref & Hl & ->)|[[Hh ->]|Ht]].
      * left. exists (ns, ref). split; [done|]. by apply elem_of_map_to_list.
      * right. left. rewrite Hh. by apply list_elem_of_singleton.
      * right. right.
        destruct Ht as [-> | [-> | ->]]; [left|right; left|right; right; left].
  - apply size_list_to_set_le.
  - apply size_list_to_set_NoDup.
Qed.

(** C3 as written fails: an agent grounded with its own text has a key that
    the upper-case variant repeats, and the set has four keys where the
    formula counts five. *)
Lemma extract_terms_size_collapses :
  let a := {| name := "BRAF";
              db_refs := {[ "HGNC" := "1097"; "TEXT" := "BRAF" ]};
              mutations := [] |} in
  name a ≠ ""
  ∧ size (_extract_terms a) = 4%nat
  ∧ (3 + size (db_refs a) + hyphen_count a)%nat = 5%nat.
Proof. split; [discriminate|]. split; vm_compute; reflexivity. Qed.

(** ** The mutation matcher *)

Lemma upper_not_digit (c : ascii) :
  PyStr.is_upper c = true → PyStr.is_digit c = false.
Proof.
  unfold PyStr.is_upper, PyStr.is_digit. intros H.
  apply andb_true_iff in H as [H1 H2].
  apply Nat.leb_le in H1. apply andb_false_iff. right.
  apply Nat.leb_gt. lia.
Qed.

Lemma span_digits_app (ds : string) (d : ascii) (rest : string) :
  all_digits ds = true → PyStr.is_digit d = false →
  span_digits (ds +:+ String d rest) = (ds, String d rest).
Proof.
  intros Hds Hd. induction ds as [|c ds IH]; simpl in *.
  - by rewrite Hd.
  - apply andb_true_iff in Hds as [Hc Hds].
    rewrite Hc, (IH Hds). done.
Qed.

Lemma span_digits_inv (s ds rest : string) :
  span_digits s = (ds, rest) →
  s = ds +:+ rest ∧ all_digits ds = true.
Proof.
  revert ds rest. induction s as [|c s IH]; simpl; intros ds rest H.
  - by inversion H.
  - destruct (PyStr.is_digit c) eqn:Hc.
    + destruct (span_digits s) as [ds' rest'] eqn:Hs. inversion H; subst.
      destruct (IH ds' rest eq_refl) as [-> Hall]. simpl. by rewrite Hc, Hall.
    + by inversion H.
Qed.

Lemma re_match_mutation_prefix (s wt pos sub : string) :
  re_match_mutation s = Some (wt, pos, sub) ↔ substitution_prefix s wt pos sub.
Proof.
  split.
  - destruct s as [|c s]; simpl; [done|].
    destruct (PyStr.is_upper c) eqn:Hc; [|done].
    destruct (span_digits s) as [ds rest] eqn:Hs.
    destruct ds as [|d0 ds]; [done|].
    destruct rest as [|d rest]; [done|].
    destruct (PyStr.is_upper d) eqn:Hd; [|done].
    intros H; inversion H; subst.
    apply span_digits_inv in Hs as [-> Hall].
    exists c, (String d0 ds), d, rest. done.
  - intros (c & ds & d & rest & -> & Hc & Hne & Hall & Hd & -> & -> & ->).
    simpl. rewrite Hc.
    rewrite span_digits_app by auto using upper_not_digit.
    destruct ds; [done|]. by rewrite Hd.
Qed.

Lemma re_match_mutation_None (s : string) :
  re_match_mutation s = None ↔
  ¬ ∃ wt pos sub, substitution_prefix s wt pos sub.
Proof.
  split.
  - intros HN (wt & pos & sub & H). apply re_match_mutation_prefix in H.
    congruence.
  - intros H. destruct (re_match_mutation s) as [[[wt pos] sub]|] eqn:E; [|done].
    exfalso. apply H. exists wt, pos, sub. by apply re_match_mutation_prefix.
Qed.

Section MatcherFacts.

Context {World : Type} `{!Services World}.

(** What [find_mutation_effect] does once the string has parsed. *)
Lemma find_mutation_effect_parsed (protein_name s wt pos sub : string)
    (m : Machine World) :
  re_match_mutation s = Some (wt, pos, sub) →
  find_mutation_effect protein_name s m =
    (Ok (match_statements wt pos sub (retrieved protein_name m)),
     match sub_statements (self m) !! protein_name with
     | Some _ => m
     | None =>
         {| self := {| sub_statements :=
                         <[protein_name := retrieved protein_name m]>
                           (sub_statements (self m));
                       target_drugs := target_drugs (self m);
                       drug_targets := drug_targets (self m) |};
            world := (query_active_forms protein_name (world m)).2;
            trace := (trace m ++ [EvActiveForms protein_name])%list |}
     end).
Proof.
  intros Hp. unfold find_mutation_effect, retrieved. rewrite Hp.
  unfold bind, get_self, external, set_sub_statements, put_self, ret, bind.
  simpl.
  destruct (sub_statements (self m) !! protein_name) eqn:Hc; simpl; [done|].
  destruct (query_active_forms protein_name (world m)) as [stmts w]. done.
Qed.

Lemma match_statements_first (wt pos sub : string) (stmts : list ActiveForm) :
  match_statements wt pos sub stmts = first_match_effect wt pos sub stmts.
Proof.
  unfold first_match_effect.
  induction stmts as [|stmt rest IH]; simpl; [done|].
  unfold exactly_one_mutation at 1.
  destruct (mutations (agent stmt)) as [|mut [|mut' muts]] eqn:Hm; simpl.
  - done.
  - unfold carries at 1. rewrite Hm.
    destruct (_ && _); simpl; [|done].
    unfold polarity. by destruct (is_active stmt).
  - done.
Qed.

End MatcherFacts.

(** C5.  When the mutation string parses to a triple, the result is decided
    by the first of the retrieved assertions that carries exactly one
    mutation and whose triple is the parsed one: ['activate'] or
    ['deactivate'] by its polarity, null when there is none.  The
    assertions are then in the per-protein cache. *)
Theorem find_mutation_effect_first_match {World : Type} `{!Services World}
    (protein_name s wt pos sub : string) (m : Machine World) :
  re_match_mutation s = Some (wt, pos, sub) →
  (find_mutation_effect protein_name s m).1
    = Ok (first_match_effect wt pos sub (retrieved protein_name m))
  ∧ first_match_effect wt pos sub (retrieved protein_name m) ≠ Some other
  ∧ sub_statements (self (find_mutation_effect protein_name s m).2) !! protein_name
    = Some (retrieved protein_name m).
Proof.
  intros Hp. rewrite (find_mutation_effect_parsed _ _ _ _ _ _ Hp). simpl.
  split; [by rewrite match_statements_first|]. split.
  - unfold first_match_effect, polarity.
    destruct (head _) as [stmt|]; simpl; [|done]. by destruct (is_active stmt).
  - unfold retrieved.
    destruct (sub_statements (self m) !! protein_name) eqn:Hc; simpl; [done|].
    by rewrite lookup_insert_eq.
Qed.

Lemma find_mutation_effect_first_match_witness :
  (@find_mutation_effect nat (Fixture.services Fixture.always_up)
     "BRAF" "V600E" Fixture.start).1 = Ok (Some activate).
Proof.
  destruct (@find_mutation_effect_first_match nat
              (Fixture.services Fixture.always_up)
              "BRAF" "V600E" "V" "600" "E" Fixture.start eq_refl) as [H _].
  rewrite H. reflexivity.
Defined.

(** C8.  A string that does not start with letter, digits, letter makes
    [find_mutation_effect] return null at once: the machine is left as it
    was, so no query went out and no cache was written. *)
Theorem find_mutation_effect_no_parse {World : Type} `{!Services World}
    (protein_name s : string) (m : Machine World) :
  (¬ ∃ wt pos sub, substitution_prefix s wt pos sub) →
  find_mutation_effect protein_name s m = (Ok None, m).
Proof.
  intros H. apply re_match_mutation_None in H.
  unfold find_mutation_effect. by rewrite H.
Qed.

Lemma find_mutation_effect_no_parse_witness :
  @find_mutation_effect nat (Fixture.services Fixture.always_up)
    "X" "notamutation" Fixture.start = (Ok None, Fixture.start).
Proof.
  apply (@find_mutation_effect_no_parse nat (Fixture.services Fixture.always_up)).
  apply re_match_mutation_None. reflexivity.
Defined.

(** C10.  The parse looks at the start of the string only.  Whatever follows
    letter, digits, letter is ignored: the prefix is taken as a plain
    substitution and the call goes on to retrieve the assertions and match
    them, exactly as for the bare substitution. *)
Theorem find_mutation_effect_prefix_anchored (c : ascii) (ds : string)
    (d : ascii) (rest : string) :
  PyStr.is_upper c = true → ds ≠ EmptyString → all_digits ds = true →
  PyStr.is_upper d = true →
  re_match_mutation (String c (ds +:+ String d rest))
    = Some (String c EmptyString, ds, String d EmptyString)
  ∧ ∀ (World : Type) (svc : Services World) (protein_name : string)
      (m : Machine World),
      find_mutation_effect protein_name (String c (ds +:+ String d rest)) m
        = find_mutation_effect protein_name
            (String c (ds +:+ String d EmptyString)) m
      ∧ (find_mutation_effect protein_name
           (String c (ds +:+ String d rest)) m).1
        = Ok (match_statements (String c EmptyString) ds (String d EmptyString)
                (retrieved protein_name m))
      ∧ (sub_statements (self m) !! protein_name = None →
         trace (find_mutation_effect protein_name
                  (String c (ds +:+ String d rest)) m).2
         = (trace m ++ [EvActiveForms protein_name])%list).
Proof.
  intros Hc Hne Hds Hd.
  assert (Hp : ∀ r, re_match_mutation (String c (ds +:+ String d r))
                    = Some (String c EmptyString, ds, String d EmptyString)).
  { intros r. apply re_match_mutation_prefix. by exists c, ds, d, r. }
  split; [apply Hp|]. intros World svc protein_name m.
  rewrite !(find_mutation_effect_parsed _ _ _ _ _ _ (Hp _)). simpl.
  split; [done|]. split; [done|]. by intros ->.
Qed.

Lemma find_mutation_effect_prefix_anchored_witness :
  re_match_mutation "V600Efs" = Some ("V", "600", "E")
  ∧ (@find_mutation_effect nat (Fixture.services Fixture.always_up)
       "BRAF" "V600Efs" Fixture.start).1 = Ok (Some activate)
  ∧ trace (@find_mutation_effect nat (Fixture.services Fixture.always_up)
             "BRAF" "V600Efs" Fixture.start).2 = [EvActiveForms "BRAF"].
Proof.
  destruct (find_mutation_effect_prefix_anchored "V" "600" "E" "fs"
              eq_refl ltac:(discriminate) eq_refl eq_refl) as [Hp Hrun].
  destruct (Hrun nat (Fixture.services Fixture.always_up) "BRAF" Fixture.start)
    as (_ & Hres & Htr).
  split; [exact Hp|]. split.
  - exact Hres.
  - exact (Htr eq_refl).
Defined.

(** ** The relation caches *)

Section RelationFacts.

Context {World : Type} `{!Services World}.

Implicit Types (m : Machine World) (K : LookupKey) (terms : list LookupKey).

Lemma find_target_drugs_hit (target : Agent) (ref : string)
    (s : gset (string * option string)) m :
  db_refs target !! "HGNC" = Some ref →
  target_drugs (self m) !! (ref, "HGNC") = Some s →
  find_target_drugs target m = (Ok s, m).
Proof.
  intros Href Hc. unfold find_target_drugs. rewrite Href.
  cbv zeta. unfold bind, get_self. by rewrite Hc.
Qed.

(** A miss on the target side, case by case on the answer. *)
Lemma find_target_drugs_miss (target : Agent) (ref : string) m :
  db_refs target !! "HGNC" = Some ref →
  target_drugs (self m) !! (ref, "HGNC") = None →
  let K := (ref, "HGNC") in
  let answer := query_relations None (_convert_term (Some K)) (world m) in
  find_target_drugs target m =
    match answer.1 with
    | Working =>
        (Ok ∅, {| self := self m; world := answer.2;
                  trace := (trace m ++ [target_query K true])%list |})
    | Statements stmts =>
        let drugs : gset (string * option string) :=
          list_to_set ((λ s, (name (subj s), db_refs (subj s) !! "PUBCHEM"))
                         <$> List.filter from_tas stmts) in
        (Ok drugs,
         {| self := {| sub_statements := sub_statements (self m);
                       target_drugs := <[K := drugs]> (target_drugs (self m));
                       drug_targets := drug_targets (self m) |};
            world := answer.2;
            trace := (trace m ++ [target_query K false])%list |})
    end.
Proof.
  intros Href Hc. unfold find_target_drugs. rewrite Href. cbv zeta.
  unfold bind at 1. unfold get_self. rewrite Hc.
  unfold try_except, _get_tas_stmts, bind, external, set_target_drugs,
    get_self, put_self, ret, raise. simpl.
  destruct (query_relations _ _ _) as [[|stmts] w]; simpl; done.
Qed.

(** One round of the loop of [find_drug_targets], case by case. *)
Lemma drug_targets_step_run (acc : gset string) K m :
  let answer := query_relations (_convert_term (Some K)) None (world m) in
  drug_targets_step acc K m =
    match drug_targets (self m) !! K with
    | Some targets => (Ok (acc ∪ targets), m)
    | None =>
        match answer.1 with
        | Working =>
            (Ok acc, {| self := self m; world := answer.2;
                        trace := (trace m ++ [drug_query K true])%list |})
        | Statements stmts =>
            let targets : gset string :=
              list_to_set ((λ s, name (obj s)) <$> List.filter from_tas stmts) in
            (Ok (acc ∪ targets),
             {| self := {| sub_statements := sub_statements (self m);
                           target_drugs := target_drugs (self m);
                           drug_targets := <[K := targets]> (drug_targets (self m)) |};
                world := answer.2;
                trace := (trace m ++ [drug_query K false])%list |})
        end
    end.
Proof.
  unfold drug_targets_step. unfold bind at 1. unfold get_self.
  destruct (drug_targets (self m) !! K) as [t|] eqn:Hc; [done|].
  unfold try_except, _get_tas_stmts, bind, external, set_drug_targets,
    get_self, put_self, ret, raise. simpl.
  destruct (query_relations _ _ _) as [[|stmts] w]; simpl; done.
Qed.

Lemma drug_targets_step_post (acc : gset string) K m :
  ∃ res evs m',
    drug_targets_step acc K m = (Ok res, m') ∧ step_post acc K m res evs m'.
Proof.
  rewrite drug_targets_step_run.
  destruct (drug_targets (self m) !! K) as [t|] eqn:Hc.
  - exists (acc ∪ t), [], m. split; [done|].
    split; try done.
    + by rewrite app_nil_r.
    + intros s Hs. rewrite Hc in Hs. by inversion Hs.
    + intros Hn. congruence.
  - destruct (query_relations _ _ _) as [[|stmts] w]; simpl.
    + eexists acc, _, _. split; [done|].
      split; simpl; try done.
      * intros s Hs. congruence.
      * intros _. left. done.
    + eexists _, _, _. split; [done|].
      split; simpl; try done.
      * intros s Hs. congruence.
      * intros _. right. eexists. done.
Qed.

End RelationFacts.

Section LoopFacts.

Context {World : Type} `{!Services World}.

Implicit Types (m : Machine World) (K : LookupKey) (terms : list LookupKey).

Lemma drug_query_inj K K' b b' : drug_query K b = drug_query K' b' → K = K' ∧ b = b'.
Proof. intros [= -> ->]. done. Qed.

Lemma filter_drug_query_absent K (evs : list Event) :
  (∀ b, drug_query K b ∉ evs) →
  (∀ ev, ev ∈ evs → ∃ K' b, ev = drug_query K' b) →
  List.filter (is_drug_query_for K) evs = [].
Proof.
  induction evs as [|ev evs IH]; intros Hno Hall; simpl; [done|].
  destruct (Hall ev) as (K' & b & ->); [left|]. simpl.
  case_bool_decide as HK.
  - subst. exfalso. apply (Hno b). left.
  - apply IH.
    + intros b' Hin. apply (Hno b'). by right.
    + intros ev' Hin. apply Hall. by right.
Qed.

Lemma for_each_drug_targets_post terms :
  NoDup terms → ∀ (acc : gset string) m,
  ∃ res evs m',
    for_each drug_targets_step terms acc m = (Ok res, m')
    ∧ loop_post terms acc m res evs m'.
Proof.
  induction 1 as [|K0 tail Hnin Hnd IH]; intros acc m.
  - exists acc, [], m. split; [done|].
    split; try done.
    + by rewrite app_nil_r.
    + intros ev Hin. by apply elem_of_nil in Hin.
    + intros K Hin. by apply elem_of_nil in Hin.
    + intros K Hin. by apply elem_of_nil in Hin.
    + intros K Hin. by apply elem_of_nil in Hin.
    + simpl. lia.
    + intros x. split; [by left|]. intros [Hx|(K & s & Hin & _)]; [done|].
      by apply elem_of_nil in Hin.
  - destruct (drug_targets_step_post acc K0 m) as (res1 & evs1 & m1 & Hrun1 & S1).
    destruct (IH res1 m1) as (res & evs2 & m' & Hrun2 & L).
    exists res, (evs1 ++ evs2)%list, m'. split.
    { simpl. unfold bind. rewrite Hrun1. exact Hrun2. }
    destruct S1 as [St Ss Sg Sh Sm].
    destruct L as [Lt Ls Lg Lonly Lto Lsu Lask Lkeep Lfr Lonce Lres Lq].
    assert (Hnone : ∀ b, drug_query K0 b ∉ evs2).
    { intros b Hin. destruct (Lonly _ Hin) as (K & b' & Heq & HK & _).
      apply drug_query_inj in Heq as [-> _]. done. }
    assert (Hall2 : ∀ ev, ev ∈ evs2 → ∃ K' b, ev = drug_query K' b).
    { intros ev Hin. destruct (Lonly _ Hin) as (K & b & -> & _). eauto. }
    destruct (drug_targets (self m) !! K0) as [s0|] eqn:Hc0.
    + destruct (Sh s0 eq_refl) as (-> & -> & ->). simpl.
      split; try done.
      * intros ev Hin. destruct (Lonly _ Hin) as (K & b & -> & HK & Hn).
        exists K, b. split; [done|]. split; [by right|done].
      * intros K [->|HK]%elem_of_cons Hn; [congruence|]. by apply Lask.
      * intros K HK. apply Lfr. intros Hin. apply HK. by right.
      * intros x. rewrite Lres. split.
        -- intros [[Hx|Hx]%elem_of_union|(K & s & HK & Hs & Hx)].
           ++ by left.
           ++ right. exists K0, s0. split; [left|]. split; [|done].
              by apply Lkeep.
           ++ right. exists K, s. split; [by right|done].
        -- intros [Hx|(K & s & [->|HK]%elem_of_cons & Hs & Hx)].
           ++ left. apply elem_of_union. by left.
           ++ left. apply elem_of_union. right.
              rewrite (Lkeep _ _ Hc0) in Hs. by inversion Hs; subst.
           ++ right. by exists K, s.
    + destruct (Sm eq_refl) as [(-> & Hd & ->)|(s1 & -> & Hd & ->)].
      * (* the query for K0 timed out *)
        split.
        -- by rewrite Lt, St, <- app_assoc.
        -- by rewrite Ls.
        -- by rewrite Lg.
        -- intros ev [->%list_elem_of_singleton|Hin]%elem_of_app.
           ++ exists K0, true. split; [done|]. split; [left|done].
           ++ destruct (Lonly _ Hin) as (K & b & -> & HK & Hn).
              exists K, b. split; [done|]. split; [by right|].
              by rewrite <- Hd.
        -- intros K [Hin%list_elem_of_singleton|Hin]%elem_of_app.
           ++ apply drug_query_inj in Hin as [-> _].
              rewrite (Lfr _ Hnin), Hd. done.
           ++ by apply Lto.
        -- intros K [Hin%list_elem_of_singleton|Hin]%elem_of_app.
           ++ by apply drug_query_inj in Hin as [_ ?].
           ++ by apply Lsu.
        -- intros K [->|HK]%elem_of_cons Hn.
           ++ exists true. apply elem_of_app. left. by apply list_elem_of_singleton.
           ++ destruct (Lask K HK) as [b Hb]; [by rewrite Hd|].
              exists b. apply elem_of_app. by right.
        -- intros K s Hs. apply Lkeep. by rewrite Hd.
        -- intros K HK. rewrite Lfr, Hd; [done|]. intros Hin. apply HK. by right.
        -- intros K. rewrite List.filter_app, length_app. simpl.
           case_bool_decide as HK; simpl.
           ++ subst. rewrite (filter_drug_query_absent K evs2); [simpl; lia|done|done].
           ++ apply Lonce.
        -- intros x. rewrite Lres. split.
           ++ intros [Hx|(K & s & HK & Hs & Hx)]; [by left|].
              right. exists K, s. split; [by right|done].
           ++ intros [Hx|(K & s & [->|HK]%elem_of_cons & Hs & Hx)]; [by left| |].
              ** rewrite (Lfr _ Hnin), Hd in Hs. congruence.
              ** right. by exists K, s.
        -- intros Hnil. by destruct evs2.
      * (* the query for K0 was answered *)
        split.
        -- by rewrite Lt, St, <- app_assoc.
        -- by rewrite Ls.
        -- by rewrite Lg.
        -- intros ev [->%list_elem_of_singleton|Hin]%elem_of_app.
           ++ exists K0, false. split; [done|]. split; [left|done].
           ++ destruct (Lonly _ Hin) as (K & b & -> & HK & Hn).
              exists K, b. split; [done|]. split; [by right|].
              rewrite Hd in Hn. rewrite lookup_insert_ne in Hn; [done|].
              intros <-. done.
        -- intros K [Hin%list_elem_of_singleton|Hin]%elem_of_app.
           ++ by apply drug_query_inj in Hin as [_ ?].
           ++ by apply Lto.
        -- intros K [Hin%list_elem_of_singleton|Hin]%elem_of_app.
           ++ apply drug_query_inj in Hin as [-> _].
              rewrite (Lfr _ Hnin), Hd, lookup_insert_eq. eauto.
           ++ by apply Lsu.
        -- intros K [->|HK]%elem_of_cons Hn.
           ++ exists false. apply elem_of_app. left. by apply list_elem_of_singleton.
           ++ destruct (Lask K HK) as [b Hb].
              { rewrite Hd, lookup_insert_ne; [done|]. intros <-. done. }
              exists b. apply elem_of_app. by right.
        -- intros K s Hs. apply Lkeep. rewrite Hd, lookup_insert_ne; [done|].
           intros <-. congruence.
        -- intros K HK. rewrite Lfr, Hd, lookup_insert_ne; [done| |].
           ++ intros <-. apply HK. left.
           ++ intros Hin. apply HK. by right.
        -- intros K. rewrite List.filter_app, length_app. simpl.
           case_bool_decide as HK; simpl.
           ++ subst. rewrite (filter_drug_query_absent K evs2); [simpl; lia|done|done].
           ++ apply Lonce.
        -- intros x. rewrite Lres. split.
           ++ intros [[Hx|Hx]%elem_of_union|(K & s & HK & Hs & Hx)].
              ** by left.
              ** right. exists K0, s1. split; [left|]. split; [|done].
                 apply Lkeep. by rewrite Hd, lookup_insert_eq.
              ** right. exists K, s. split; [by right|done].
           ++ intros [Hx|(K & s & [->|HK]%elem_of_cons & Hs & Hx)].
              ** left. apply elem_of_union. by left.
              ** left. apply elem_of_union. right.
                 rewrite (Lfr _ Hnin), Hd, lookup_insert_eq in Hs.
                 by inversion Hs; subst.
              ** right. by exists K, s.
        -- intros Hnil. by destruct evs2.
Qed.

End LoopFacts.

Section CacheTheorems.

Context {World : Type} `{!Services World}.

Implicit Types (m : Machine World) (K : LookupKey) (terms : list LookupKey).

Lemma issued_app {A} (c : M World A) m (evs : list Event) :
  trace (c m).2 = (trace m ++ evs)%list → issued c m = evs.
Proof. intros H. unfold issued. rewrite H. by rewrite drop_app_length. Qed.

Lemma find_drug_targets_over_post terms m :
  NoDup terms →
  ∃ res m',
    find_drug_targets_over terms m = (Ok res, m')
    ∧ loop_post terms ∅ m res (issued (find_drug_targets_over terms) m) m'.
Proof.
  intros Hnd.
  destruct (for_each_drug_targets_post terms Hnd ∅ m) as (res & evs & m' & Hrun & L).
  exists res, m'. split; [done|].
  rewrite (issued_app _ _ evs); [done|].
  unfold find_drug_targets_over. rewrite Hrun. apply L.
Qed.

Lemma enumeration_NoDup (drug : Agent) terms :
  terms ≡ₚ elements (_extract_terms drug) → NoDup terms.
Proof. intros ->. apply NoDup_elements. Qed.

Lemma enumeration_elem_of (drug : Agent) terms K :
  terms ≡ₚ elements (_extract_terms drug) → K ∈ terms ↔ K ∈ _extract_terms drug.
Proof. intros ->. apply elem_of_elements. Qed.

Lemma DTDA_eq (d d' : DTDA) :
  sub_statements d = sub_statements d' → target_drugs d = target_drugs d' →
  drug_targets d = drug_targets d' → d = d'.
Proof. destruct d, d'; simpl; intros -> -> ->; done. Qed.

(** C2.  A relation query that times out leaves the cache without an entry
    for its key.  [find_target_drugs] then returns the empty result and
    leaves the agent as it was; [find_drug_targets] skips the key.  A call
    made right after asks the database for that key again.  The keys of a
    drug may be visited in any order, in each of the two calls. *)
Theorem timeout_leaves_no_entry :
  (∀ (target : Agent) (ref : string) m,
     db_refs target !! "HGNC" = Some ref →
     target_drugs (self m) !! (ref, "HGNC") = None →
     (query_relations None (_convert_term (Some (ref, "HGNC"))) (world m)).1
       = Working →
     let m' := (find_target_drugs target m).2 in
     (find_target_drugs target m).1 = Ok ∅
     ∧ self m' = self m
     ∧ issued (find_target_drugs target) m = [target_query (ref, "HGNC") true]
     ∧ ∃ b, issued (find_target_drugs target) m'
            = [target_query (ref, "HGNC") b])
  ∧ (∀ (drug : Agent) terms terms' m,
       terms ≡ₚ elements (_extract_terms drug) →
       terms' ≡ₚ elements (_extract_terms drug) →
       let m' := (find_drug_targets_over terms m).2 in
       ∃ res,
         (find_drug_targets_over terms m).1 = Ok res
         ∧ (∀ K, drug_query K true ∈ issued (find_drug_targets_over terms) m →
                 K ∈ _extract_terms drug
                 ∧ drug_targets (self m') !! K = None
                 ∧ ∃ b, drug_query K b
                        ∈ issued (find_drug_targets_over terms') m')
         ∧ ((∀ K, K ∈ _extract_terms drug →
                  drug_query K true ∈ issued (find_drug_targets_over terms) m) →
            res = ∅ ∧ self m' = self m)).
Proof.
  split.
  - intros target ref m Href Hc Hw m'. subst m'.
    pose proof (find_target_drugs_miss target ref m Href Hc) as Hrun.
    cbv zeta in Hrun. rewrite Hw in Hrun.
    rewrite Hrun. simpl.
    split; [done|]. split; [done|]. split.
    { apply issued_app. by rewrite Hrun. }
    set (m1 := {| self := self m; world := _; trace := _ |}).
    pose proof (find_target_drugs_miss target ref m1 Href Hc) as Hrun1.
    cbv zeta in Hrun1.
    destruct ((query_relations None (_convert_term (Some (ref, "HGNC")))
                 (world m1)).1) eqn:Hw1.
    + exists true. apply issued_app. by rewrite Hrun1.
    + exists false. apply issued_app. by rewrite Hrun1.
  - intros drug terms terms' m Hp Hp' m'. subst m'.
    destruct (find_drug_targets_over_post terms m (enumeration_NoDup _ _ Hp))
      as (res & m1 & Hrun & L).
    rewrite Hrun. simpl. exists res. split; [done|].
    destruct (find_drug_targets_over_post terms' m1 (enumeration_NoDup _ _ Hp'))
      as (res' & m2 & Hrun' & L').
    split.
    + intros K Hin.
      destruct (loop_only _ _ _ _ _ _ L _ Hin) as (K1 & b & Heq & HK & Hn).
      apply drug_query_inj in Heq as [<- _].
      pose proof (loop_timeout _ _ _ _ _ _ L _ Hin) as Hnone.
      split; [by apply (enumeration_elem_of drug terms)|]. split; [done|].
      apply (loop_asked _ _ _ _ _ _ L'); [|done].
      apply (enumeration_elem_of drug terms'); [done|].
      by apply (enumeration_elem_of drug terms).
    + intros Hall. split.
      * apply set_eq. intros x. rewrite (loop_result _ _ _ _ _ _ L).
        split; [|set_solver].
        intros [Hx|(K & s & HK & Hs & Hx)]; [done|].
        apply (enumeration_elem_of drug terms) in HK; [|done].
        rewrite (loop_timeout _ _ _ _ _ _ L _ (Hall _ HK)) in Hs. done.
      * apply DTDA_eq.
        -- apply (loop_sub _ _ _ _ _ _ L).
        -- apply (loop_tgt _ _ _ _ _ _ L).
        -- apply map_eq. intros K.
           destruct (decide (K ∈ terms)) as [HK|HK].
           ++ apply (enumeration_elem_of drug terms) in HK; [|done].
              pose proof (Hall _ HK) as Hin.
              rewrite (loop_timeout _ _ _ _ _ _ L _ Hin).
              destruct (loop_only _ _ _ _ _ _ L _ Hin) as (K1 & b & Heq & _ & Hn).
              apply drug_query_inj in Heq as [<- _]. done.
           ++ apply (loop_frame _ _ _ _ _ _ L _ HK).
Qed.

(** C7.  A key that a call has resolved and stored is served from the
    cache by the next call: no relation query goes out for it, its stored
    set stays and is what the call returns ([find_target_drugs]) or
    contributes ([find_drug_targets]), and over the two calls at most one
    query was made for it.  When every key of the drug is stored, the
    second call returns what the first did and changes nothing. *)
Theorem cache_hit_issues_no_query :
  (∀ (target : Agent) (ref : string) m,
     db_refs target !! "HGNC" = Some ref →
     let r := find_target_drugs target m in
     (length (issued (find_target_drugs target) m) ≤ 1)%nat
     ∧ ∀ s, target_drugs (self r.2) !! (ref, "HGNC") = Some s →
            r.1 = Ok s ∧ find_target_drugs target r.2 = (Ok s, r.2))
  ∧ (∀ (drug : Agent) terms terms' m,
       terms ≡ₚ elements (_extract_terms drug) →
       terms' ≡ₚ elements (_extract_terms drug) →
       let r := find_drug_targets_over terms m in
       let r' := find_drug_targets_over terms' r.2 in
       ∃ res res',
         r.1 = Ok res ∧ r'.1 = Ok res'
         ∧ (∀ K s, K ∈ _extract_terms drug →
                   drug_targets (self r.2) !! K = Some s →
                   (∀ b, drug_query K b
                         ∉ issued (find_drug_targets_over terms') r.2)
                   ∧ drug_targets (self r'.2) !! K = Some s
                   ∧ s ⊆ res'
                   ∧ (length (List.filter (is_drug_query_for K)
                                (issued (find_drug_targets_over terms) m
                                 ++ issued (find_drug_targets_over terms') r.2))
                      ≤ 1)%nat)
         ∧ ((∀ K, K ∈ _extract_terms drug →
                  is_Some (drug_targets (self r.2) !! K)) →
            r' = r)).
Proof.
  split.
  - intros target ref m Href r. subst r.
    destruct (target_drugs (self m) !! (ref, "HGNC")) as [s0|] eqn:Hc.
    + pose proof (find_target_drugs_hit target ref s0 m Href Hc) as Hrun.
      split.
      { rewrite (issued_app _ _ []); [simpl; lia|].
        by rewrite Hrun, app_nil_r. }
      intros s Hs. rewrite Hrun in *.
      simpl in *. rewrite Hc in Hs. inversion Hs; subst.
      split; [done|]. by apply (find_target_drugs_hit _ ref).
    + pose proof (find_target_drugs_miss target ref m Href Hc) as Hrun.
      cbv zeta in Hrun.
      destruct ((query_relations None (_convert_term (Some (ref, "HGNC")))
                   (world m)).1) as [|stmts]; simpl in *.
      * split.
        { rewrite (issued_app _ _ [target_query (ref, "HGNC") true]);
            [simpl; lia|]. by rewrite Hrun. }
        intros s Hs. rewrite Hrun in Hs. simpl in Hs. congruence.
      * split.
        { rewrite (issued_app _ _ [target_query (ref, "HGNC") false]);
            [simpl; lia|]. by rewrite Hrun. }
        intros s Hs. rewrite Hrun in *. simpl in *.
        rewrite lookup_insert_eq in Hs. inversion Hs; subst.
        split; [done|]. apply (find_target_drugs_hit _ ref); [done|].
        simpl. by rewrite lookup_insert_eq.
  - intros drug terms terms' m Hp Hp' r r'. subst r r'.
    destruct (find_drug_targets_over_post terms m (enumeration_NoDup _ _ Hp))
      as (res & m1 & Hrun & L).
    rewrite Hrun. simpl.
    destruct (find_drug_targets_over_post terms' m1 (enumeration_NoDup _ _ Hp'))
      as (res' & m2 & Hrun' & L').
    rewrite Hrun'. simpl. exists res, res'. split; [done|]. split; [done|].
    assert (Hquiet : ∀ K s, drug_targets (self m1) !! K = Some s →
              ∀ b, drug_query K b ∉ issued (find_drug_targets_over terms') m1).
    { intros K s Hs b Hin.
      destruct (loop_only _ _ _ _ _ _ L' _ Hin) as (K1 & b1 & Heq & _ & Hn).
      apply drug_query_inj in Heq as [<- _]. congruence. }
    split.
    + intros K s HK Hs.
      split; [by apply (Hquiet K s)|].
      pose proof (loop_keep _ _ _ _ _ _ L' _ _ Hs) as Hs'.
      split; [done|]. split.
      * intros x Hx. apply (loop_result _ _ _ _ _ _ L'). right.
        exists K, s. split; [|done].
        by apply (enumeration_elem_of drug terms').
      * rewrite List.filter_app, length_app.
        rewrite (filter_drug_query_absent K
                   (issued (find_drug_targets_over terms') m1)).
        -- pose proof (loop_once _ _ _ _ _ _ L K). simpl. lia.
        -- by apply (Hquiet K s).
        -- intros ev Hin.
           destruct (loop_only _ _ _ _ _ _ L' _ Hin) as (K1 & b1 & -> & _).
           eauto.
    + intros Hall.
      assert (Hnil : issued (find_drug_targets_over terms') m1 = []).
      { destruct (issued (find_drug_targets_over terms') m1) as [|ev evs] eqn:E;
          [done|].
        assert (Hin : ev ∈ ev :: evs) by left.
        destruct (loop_only _ _ _ _ _ _ L' _ Hin) as (K1 & b1 & _ & HK1 & Hn).
        apply (enumeration_elem_of drug terms') in HK1; [|done].
        destruct (Hall _ HK1) as [s Hs]. congruence. }
      pose proof (loop_quiet _ _ _ _ _ _ L' Hnil) as ->.
      f_equal. f_equal. apply set_eq. intros x.
      rewrite (loop_result _ _ _ _ _ _ L), (loop_result _ _ _ _ _ _ L').
      split; intros [Hx|(K & s & HK & Hs & Hx)]; try done; right;
        exists K, s; (split; [|done]).
      * apply (enumeration_elem_of drug terms); [done|].
        by apply (enumeration_elem_of drug terms').
      * apply (enumeration_elem_of drug terms'); [done|].
        by apply (enumeration_elem_of drug terms).
Qed.

End CacheTheorems.

Lemma timeout_leaves_no_entry_witness :
  (@find_target_drugs nat (Fixture.services Fixture.down_at_first)
     Fixture.braf Fixture.start).1 = Ok ∅
  ∧ drug_targets
      (self (@find_drug_targets nat (Fixture.services Fixture.down_at_first)
               Fixture.vemurafenib Fixture.start).2)
      !! ("vemurafenib", "TEXT") = None.
Proof.
  destruct (@timeout_leaves_no_entry nat
              (Fixture.services Fixture.down_at_first)) as [HA HB].
  split.
  - apply (HA Fixture.braf "1097" Fixture.start); reflexivity.
  - destruct (HB Fixture.vemurafenib
                (elements (_extract_terms Fixture.vemurafenib))
                (elements (_extract_terms Fixture.vemurafenib))
                Fixture.start (reflexivity _) (reflexivity _))
      as (res & _ & Hkey & _).
    destruct (Hkey ("vemurafenib", "TEXT")) as (_ & Hnone & _).
    + apply (bool_decide_unpack _). vm_compute. exact I.
    + exact Hnone.
Defined.

Lemma cache_hit_issues_no_query_witness :
  (∃ s, let r := @find_target_drugs nat (Fixture.services Fixture.always_up)
                   Fixture.braf Fixture.start in
        r.1 = Ok s
        ∧ @find_target_drugs nat (Fixture.services Fixture.always_up)
            Fixture.braf r.2 = (Ok s, r.2))
  ∧ ∀ b,
      drug_query ("Vemurafenib", "TEXT") b
      ∉ @issued nat (Fixture.services Fixture.always_up) _
          (@find_drug_targets nat (Fixture.services Fixture.always_up)
             Fixture.vemurafenib)
          (@find_drug_targets nat (Fixture.services Fixture.always_up)
             Fixture.vemurafenib Fixture.start).2.
Proof.
  destruct (@cache_hit_issues_no_query nat
              (Fixture.services Fixture.always_up)) as [HA HB].
  split.
  - eexists.
    destruct (HA Fixture.braf "1097" Fixture.start eq_refl) as [_ Hhit].
    apply Hhit. vm_compute. reflexivity.
  - destruct (HB Fixture.vemurafenib
                (elements (_extract_terms Fixture.vemurafenib))
                (elements (_extract_terms Fixture.vemurafenib))
                Fixture.start (reflexivity _) (reflexivity _))
      as (res & res' & _ & _ & Hkey & _).
    destruct (Hkey ("Vemurafenib", "TEXT") {[ "BRAF" ]}) as (Hno & _).
    + apply (bool_decide_unpack _). vm_compute. exact I.
    + vm_compute. reflexivity.
    + exact Hno.
Defined.

(** ** The disease mutation aggregator *)

Lemma sequenced_app (evs evs' : list Event) :
  sequenced (evs ++ evs') = (sequenced evs ++ sequenced evs')%list.
Proof. unfold sequenced. apply omap_app. Qed.

Lemma Zsum_app (l l' : list Z) : Zsum (l ++ l') = Zsum l + Zsum l'.
Proof. unfold Zsum. induction l as [|x l IH]; simpl; lia. Qed.

Lemma dict_get_Forall {V} (P : V → Prop) (d : list (string * V)) k v :
  Forall (λ p, P p.2) d → dict_get d k = Some v → P v.
Proof.
  induction 1 as [|[k' v'] d HP Hd IH]; simpl; [done|].
  destruct (String.eqb k' k); [|done]. by intros [= <-].
Qed.

Lemma dict_set_Forall {V} (P : V → Prop) (d : list (string * V)) k v :
  Forall (λ p, P p.2) d → P v → Forall (λ p, P p.2) (dict_set d k v).
Proof.
  intros Hd Hv. induction Hd as [|[k' v'] d HP Hd IH]; simpl.
  - by constructor.
  - destruct (String.eqb k' k); by constructor.
Qed.

Lemma bump_tallied key n e :
  tallied (n, e) → tallied (n + 1, bump key e).
Proof.
  unfold tallied, effect_sum. simpl. intros (Ha & Hd & Ho & Hs & H1).
  destruct key; simpl; lia.
Qed.

Lemma record_mutation_tallied (d : MutationDict) g key :
  Forall (λ p, tallied p.2) d →
  Forall (λ p, tallied p.2) (record_mutation d g key).
Proof.
  intros Hd. unfold record_mutation.
  destruct (dict_get d g) as [[n e]|] eqn:Hg.
  - apply (dict_set_Forall tallied); [done|].
    apply bump_tallied. by apply (dict_get_Forall tallied d g).
  - apply (dict_set_Forall tallied); [done|].
    unfold tallied, effect_sum. destruct key; simpl; lia.
Qed.

Section LoopInvariant.

Context {World : Type} `{!Services World}.

(** A loop whose body always returns keeps an invariant that may mention
    the elements handled so far. *)
Lemma for_each_invariant {A B} (body : A → B → M World A)
    (J : list B → A → Machine World → Prop) (l : list B) :
  (∀ seen x a m, J seen a m →
     ∃ a' m', body a x m = (Ok a', m') ∧ J (seen ++ [x])%list a' m') →
  ∀ seen a m, J seen a m →
    ∃ a' m', for_each body l a m = (Ok a', m') ∧ J (seen ++ l)%list a' m'.
Proof.
  intros Hbody. induction l as [|x l IH]; intros seen a m HJ; simpl.
  - exists a, m. by rewrite app_nil_r.
  - destruct (Hbody seen x a m HJ) as (a1 & m1 & Hrun & HJ1).
    destruct (IH _ _ _ HJ1) as (a' & m' & Hrun' & HJ').
    exists a', m'. unfold bind. rewrite Hrun.
    split; [done|]. by rewrite <- app_assoc in HJ'.
Qed.

End LoopInvariant.

Section AggregatorFacts.

Context {World : Type} `{!Services World}.

Implicit Types (m : Machine World).

Lemma find_mutation_effect_runs (protein_name s : string) m :
  ∃ r m' evs,
    find_mutation_effect protein_name s m = (Ok r, m')
    ∧ trace m' = (trace m ++ evs)%list ∧ sequenced evs = [].
Proof.
  destruct (re_match_mutation s) as [[[wt pos] sub]|] eqn:Hp.
  - rewrite (find_mutation_effect_parsed _ _ _ _ _ _ Hp).
    destruct (sub_statements (self m) !! protein_name).
    + eexists _, _, []. by rewrite app_nil_r.
    + eexists _, _, [_]. simpl. done.
  - unfold find_mutation_effect. rewrite Hp.
    eexists _, _, []. unfold ret. by rewrite app_nil_r.
Qed.

Lemma record_step_runs (top_gene : string) (d : MutationDict)
    (ga : string * string) m :
  Forall (λ p, tallied p.2) d →
  ∃ d' m' evs,
    record_step top_gene d ga m = (Ok d', m')
    ∧ trace m' = (trace m ++ evs)%list ∧ sequenced evs = []
    ∧ Forall (λ p, tallied p.2) d'.
Proof.
  intros Hd. destruct ga as [g a]. unfold record_step.
  destruct (negb (String.eqb g top_gene)).
  - exists d, m, []. unfold ret. by rewrite app_nil_r.
  - destruct (find_mutation_effect_runs g a m) as (r & m' & evs & Hrun & Ht & Hs).
    unfold bind. rewrite Hrun. unfold ret.
    eexists _, m', evs. split; [done|]. split; [done|]. split; [done|].
    by apply record_mutation_tallied.
Qed.

Lemma record_loop_runs (top_gene : string) (l : list (string * string))
    (d : MutationDict) m :
  Forall (λ p, tallied p.2) d →
  ∃ d' m' evs,
    for_each (record_step top_gene) l d m = (Ok d', m')
    ∧ trace m' = (trace m ++ evs)%list ∧ sequenced evs = []
    ∧ Forall (λ p, tallied p.2) d'.
Proof.
  intros Hd.
  destruct (for_each_invariant (record_step top_gene)
              (λ _ d' m', ∃ evs, trace m' = (trace m ++ evs)%list
                                 ∧ sequenced evs = []
                                 ∧ Forall (λ p, tallied p.2) d')
              l) with (seen := @nil (string * string)) (a := d) (m := m)
    as (d' & m' & Hrun & evs & Ht & Hs & Hd').
  - intros _ x a m1 (evs1 & Ht1 & Hs1 & Ha).
    destruct (record_step_runs top_gene a x m1 Ha)
      as (a' & m2 & evs2 & Hrun & Ht2 & Hs2 & Ha').
    exists a', m2. split; [done|]. exists (evs1 ++ evs2)%list.
    rewrite Ht2, Ht1, <- app_assoc, sequenced_app, Hs1, Hs2. done.
  - exists []. by rewrite app_nil_r.
  - by exists d', m', evs.
Qed.

(** One round of the study loop, with the two fetches made explicit. *)
Lemma study_step_run (gene_list : list string) (mutation_type : string)
    (d : MutationDict) (n : Z) (study_id : string) m :
  let counted := get_num_sequenced study_id (world m) in
  let fetched := get_mutations study_id gene_list mutation_type counted.2 in
  let m2 := {| self := self m; world := fetched.2;
               trace := ((trace m ++ [EvNumSequenced study_id counted.1])
                         ++ [EvMutations study_id mutation_type])%list |} in
  study_step gene_list mutation_type (d, n) study_id m =
    match gene_symbol fetched.1 with
    | [] => (Ok (d, n + counted.1), m2)
    | g0 :: gs =>
        match for_each (record_step (py_max (count (gene_symbol fetched.1)) g0 gs))
                (zip (gene_symbol fetched.1) (amino_acid_change fetched.1))
                d m2 with
        | (Ok d', m') => (Ok (d', n + counted.1), m')
        | (Raise e, m') => (Raise e, m')
        end
    end.
Proof.
  unfold study_step, bind, external. simpl.
  destruct (get_num_sequenced study_id (world m)) as [c w1]. simpl.
  destruct (get_mutations study_id gene_list mutation_type w1) as [muts w2].
  simpl. destruct (gene_symbol muts) as [|g0 gs]; [done|].
  destruct (for_each _ _ _ _) as [[d'|e] m']; done.
Qed.

Lemma study_step_runs (gene_list : list string) (mutation_type : string)
    (d : MutationDict) (n : Z) (study_id : string) m :
  Forall (λ p, tallied p.2) d →
  ∃ d' c m' evs,
    study_step gene_list mutation_type (d, n) study_id m = (Ok (d', n + c), m')
    ∧ trace m' = (trace m ++ evs)%list ∧ sequenced evs = [(study_id, c)]
    ∧ Forall (λ p, tallied p.2) d'.
Proof.
  intros Hd. rewrite study_step_run. cbv zeta.
  set (c := (get_num_sequenced study_id (world m)).1).
  set (muts := (get_mutations study_id gene_list mutation_type _).1).
  set (m2 := {| self := self m; world := _; trace := _ |}).
  destruct (gene_symbol muts) as [|g0 gs] eqn:Hg.
  - exists d, c, m2, [EvNumSequenced study_id c;
                      EvMutations study_id mutation_type].
    split; [done|]. split; [|done]. subst m2. simpl.
    by rewrite <- app_assoc.
  - destruct (record_loop_runs (py_max (count (g0 :: gs)) g0 gs)
                (zip (g0 :: gs) (amino_acid_change muts)) d m2 Hd)
      as (d' & m' & evs & Hrun & Ht & Hs & Hd').
    rewrite Hrun.
    exists d', c, m', ([EvNumSequenced study_id c;
                        EvMutations study_id mutation_type] ++ evs)%list.
    split; [done|]. split.
    { rewrite Ht. subst m2. simpl. rewrite <- !app_assoc. done. }
    split; [|done]. rewrite sequenced_app, Hs. done.
Qed.

Lemma collect_runs (study_ids : list string) (mutation_type : string) m :
  ∃ d num_case m',
    collect study_ids mutation_type m = (Ok (d, num_case), m')
    ∧ Forall (λ p, tallied p.2) d
    ∧ (sequenced (issued (collect study_ids mutation_type) m)).*1 = study_ids
    ∧ num_case = Zsum (sequenced (issued (collect study_ids mutation_type) m)).*2.
Proof.
  destruct (for_each_invariant (study_step _get_gene_list mutation_type)
              (λ seen acc m', ∃ evs, trace m' = (trace m ++ evs)%list
                                     ∧ (sequenced evs).*1 = seen
                                     ∧ acc.2 = Zsum (sequenced evs).*2
                                     ∧ Forall (λ p, tallied p.2) acc.1)
              study_ids) with (seen := @nil string)
                              (a := ([] : MutationDict, 0)) (m := m)
    as ([d num_case] & m' & Hrun & evs & Ht & Hids & Hsum & Hd).
  - intros seen x [d n] m1 (evs1 & Ht1 & Hids1 & Hn1 & Hd1). simpl in *.
    destruct (study_step_runs _get_gene_list mutation_type d n x m1 Hd1)
      as (d' & c & m2 & evs2 & Hrun & Ht2 & Hs2 & Hd').
    eexists _, m2. split; [exact Hrun|]. exists (evs1 ++ evs2)%list. simpl.
    rewrite Ht2, Ht1, <- app_assoc, sequenced_app, Hs2, !fmap_app, Zsum_app.
    rewrite Hids1, <- Hn1. unfold Zsum. simpl.
    split; [done|]. split; [done|]. split; [lia|done].
  - exists []. simpl. rewrite app_nil_r. done.
  - simpl in *. exists d, num_case, m'.
    unfold collect in *. split; [done|]. split; [done|].
    rewrite (issued_app _ _ evs) by (by rewrite Hrun). done.
Qed.

End AggregatorFacts.

Lemma normalize_ok (num_case : Z) (d : MutationDict) :
  num_case ≠ 0 →
  normalize num_case d = Ok ((λ p, (p.1, normalized num_case p.2)) <$> d).
Proof.
  intros Hn. induction d as [|[k v] d IH]; simpl; [done|].
  unfold normalize_entry. destruct (Z.eqb_spec num_case 0) as [|_]; [done|].
  by rewrite IH.
Qed.

Lemma normalize_raise (num_case : Z) (d : MutationDict) (e : Exn) :
  normalize num_case d = Raise e → e = ZeroDivisionError ∧ num_case = 0.
Proof.
  destruct (decide (num_case = 0)) as [->|Hn].
  - destruct d as [|[k v] d]; simpl; [done|]. by intros [= <-].
  - by rewrite normalize_ok.
Qed.

Lemma np_truediv_finite (a s : Z) : s ≠ 0 → np_truediv a s = Finite (py_truediv a s).
Proof. intros Hs. unfold np_truediv. by destruct (Z.eqb_spec s 0). Qed.

Lemma normalized_finite (num_case : Z) (v : Z * EffectDict Z) :
  effect_sum v.2 ≠ 0 → finite_distribution (normalized num_case v).2.
Proof.
  intros Hs. unfold finite_distribution, normalized. simpl.
  rewrite !np_truediv_finite by done. done.
Qed.

(** The three quotients of a tally by its sum add up to one. *)
Lemma distribution_sums_to_one (a d o : Z) :
  a + d + o ≠ 0 →
  (py_truediv a (a + d + o) + py_truediv d (a + d + o)
   + py_truediv o (a + d + o))%Qc = 1%Qc.
Proof.
  intros Hs. apply Qc_is_canon. unfold py_truediv. simpl.
  rewrite !Qred_correct. rewrite !inject_Z_plus.
  assert (Hq : ¬ (inject_Z a + inject_Z d + inject_Z o == 0)%Q).
  { rewrite <- !inject_Z_plus. intros H. apply Hs.
    unfold Qeq in H. simpl in H. lia. }
  field. exact Hq.
Qed.

Section StatisticsFacts.

Context {World : Type} `{!Services World}.

Implicit Types (m : Machine World).

Lemma studies_loop_run (study_prefixes acc : list string) m :
  ∃ m',
    for_each
      (λ study_ids sp,
         let! found := external (get_cancer_studies sp) (λ _, EvStudies sp) in
         ret (study_ids ++ found)%list)
      study_prefixes acc m
    = (Ok (acc ++ listed_studies study_prefixes (world m))%list, m').
Proof.
  revert acc m. induction study_prefixes as [|sp rest IH]; intros acc m.
  - exists m. simpl. by rewrite app_nil_r.
  - destruct (IH (acc ++ (get_cancer_studies sp (world m)).1)%list
                {| self := self m; world := (get_cancer_studies sp (world m)).2;
                   trace := (trace m ++ [EvStudies sp])%list |}) as [m' Hm'].
    exists m'. cbn [for_each listed_studies]. unfold bind at 1.
    unfold bind at 1. unfold external at 1. unfold ret at 1.
    destruct (get_cancer_studies sp (world m)) as [found w].
    simpl in Hm'. rewrite Hm'. by rewrite <- app_assoc.
Qed.

Lemma resolved_studies_nil (study_prefixes : list string) m :
  resolved_studies study_prefixes m = []
  ↔ listed_studies study_prefixes (world m) = [].
Proof.
  unfold resolved_studies. split.
  - intros H. apply elements_empty_inv in H.
    destruct (listed_studies study_prefixes (world m)) as [|x l]; [done|].
    exfalso. assert (Hx : x ∈ (list_to_set (x :: l) : gset string))
      by (apply elem_of_list_to_set; left).
    apply leibniz_equiv in H. rewrite H in Hx. by apply not_elem_of_empty in Hx.
  - intros ->. apply elements_empty.
Qed.

Lemma get_studies_absent (disease_name : string) m :
  cbio_efo_map !! disease_name = None →
  _get_studies_from_disease_name disease_name m = (Ok None, m).
Proof. intros H. unfold _get_studies_from_disease_name. by rewrite H. Qed.

Lemma get_studies_present (disease_name : string) (study_prefixes : list string) m :
  cbio_efo_map !! disease_name = Some study_prefixes →
  ∃ m', _get_studies_from_disease_name disease_name m
        = (Ok (Some (resolved_studies study_prefixes m)), m').
Proof.
  intros H. unfold _get_studies_from_disease_name. rewrite H.
  destruct (studies_loop_run study_prefixes [] m) as [m' Hm'].
  exists m'. unfold bind at 1. rewrite Hm'. done.
Qed.

(** The three ways [get_mutation_statistics] can go. *)
Lemma get_mutation_statistics_run (disease_name mutation_type : string) m :
  match cbio_efo_map !! disease_name with
  | None =>
      get_mutation_statistics disease_name mutation_type m
      = (Raise DiseaseNotFoundException, m)
  | Some study_prefixes =>
      ∃ m1, _get_studies_from_disease_name disease_name m
            = (Ok (Some (resolved_studies study_prefixes m)), m1)
            ∧ match resolved_studies study_prefixes m with
              | [] =>
                  get_mutation_statistics disease_name mutation_type m
                  = (Raise DiseaseNotFoundException, m1)
              | study_ids =>
                  ∃ d num_case m',
                    collect study_ids mutation_type m1 = (Ok (d, num_case), m')
                    ∧ Forall (λ p, tallied p.2) d
                    ∧ get_mutation_statistics disease_name mutation_type m
                      = (normalize num_case d, m')
              end
  end.
Proof.
  destruct (cbio_efo_map !! disease_name) as [study_prefixes|] eqn:Hl.
  - destruct (get_studies_present _ _ m Hl) as [m1 Hm1].
    exists m1. split; [done|].
    destruct (resolved_studies study_prefixes m) as [|id ids].
    { unfold get_mutation_statistics. unfold bind at 1. by rewrite Hm1. }
    destruct (collect_runs (id :: ids) mutation_type m1)
      as (d & num_case & m' & Hrun & Hd & _).
    exists d, num_case, m'. split; [done|]. split; [done|].
    unfold get_mutation_statistics. unfold bind at 1. rewrite Hm1.
    unfold bind at 1. rewrite Hrun. unfold lift.
    by destruct (normalize num_case d).
  - unfold get_mutation_statistics. unfold bind.
    by rewrite (get_studies_absent _ _ Hl).
Qed.

(** C4.  [get_mutation_statistics] raises [DiseaseNotFound] exactly when the
    disease is absent from the table or when its prefixes list no study;
    the caller sees the same exception in both cases. *)
Theorem disease_not_found_iff (disease_name mutation_type : string) m :
  (get_mutation_statistics disease_name mutation_type m).1
    = Raise DiseaseNotFoundException
  ↔ cbio_efo_map !! disease_name = None
    ∨ ∃ study_prefixes,
        cbio_efo_map !! disease_name = Some study_prefixes
        ∧ listed_studies study_prefixes (world m) = [].
Proof.
  pose proof (get_mutation_statistics_run disease_name mutation_type m) as Hrun.
  destruct (cbio_efo_map !! disease_name) as [study_prefixes|] eqn:Hl.
  - destruct Hrun as (m1 & _ & Hrun).
    destruct (resolved_studies study_prefixes m) as [|id ids] eqn:Hr.
    + rewrite Hrun. simpl. split; [|done]. intros _. right.
      exists study_prefixes. split; [done|]. by apply resolved_studies_nil.
    + destruct Hrun as (d & num_case & m' & _ & _ & ->). simpl. split.
      * intros He. apply normalize_raise in He as [? _]. done.
      * intros [?|(sp & [= <-] & Hnil)]; [done|].
        apply resolved_studies_nil in Hnil. congruence.
  - rewrite Hrun. simpl. split; [by left|done].
Qed.

(** C9.  Every gene in the mapping built by the study loop has tallies
    that add up to its count, which is at least one; the loop always
    returns.  Dividing by the tally sum is therefore never a division by
    zero: whatever [get_mutation_statistics] returns has finite effect
    distributions. *)
Theorem tally_sum_positive :
  (∀ (study_ids : list string) (mutation_type : string) m,
     ∃ d num_case m',
       collect study_ids mutation_type m = (Ok (d, num_case), m')
       ∧ Forall (λ p, 1 ≤ effect_sum p.2.2 ∧ effect_sum p.2.2 = p.2.1) d
       ∧ ∀ n stats, normalize n d = Ok stats →
                    Forall (λ p, finite_distribution p.2.2) stats)
  ∧ (∀ (disease_name mutation_type : string) m stats,
       (get_mutation_statistics disease_name mutation_type m).1 = Ok stats →
       Forall (λ p, finite_distribution p.2.2) stats).
Proof.
  assert (Hfin : ∀ (d : MutationDict) n stats,
            Forall (λ p, tallied p.2) d → normalize n d = Ok stats →
            Forall (λ p : string * Statistic, finite_distribution p.2.2) stats).
  { intros d n stats Hd Hn.
    destruct (decide (n = 0)) as [->|Hn0].
    - destruct d as [|[k v] d]; simpl in Hn; [|done].
      inversion Hn; subst. constructor.
    - rewrite normalize_ok in Hn by done. inversion Hn; subst.
      apply Forall_fmap. eapply Forall_impl; [exact Hd|].
      intros [k v] (_ & _ & _ & _ & H1). simpl in *.
      apply (normalized_finite n). simpl. lia. }
  split.
  - intros study_ids mutation_type m.
    destruct (collect_runs study_ids mutation_type m)
      as (d & num_case & m' & Hrun & Hd & _).
    exists d, num_case, m'. split; [done|]. split.
    + eapply Forall_impl; [exact Hd|].
      intros [k v] (_ & _ & _ & Hs & H1). done.
    + intros n stats. by apply Hfin.
  - intros disease_name mutation_type m stats.
    pose proof (get_mutation_statistics_run disease_name mutation_type m) as Hrun.
    destruct (cbio_efo_map !! disease_name) as [study_prefixes|].
    + destruct Hrun as (m1 & _ & Hrun).
      destruct (resolved_studies study_prefixes m) as [|id ids].
      * by rewrite Hrun.
      * destruct Hrun as (d & num_case & m' & _ & Hd & ->). simpl.
        by apply Hfin.
    + by rewrite Hrun.
Qed.

(** C1, where the code parts from it.  When the aggregator returns a
    mapping without entries, [get_top_mutation] does not return null: the
    [is None] test lets the empty mapping through and taking the first
    element of the sorted list raises [IndexError]. *)
Theorem get_top_mutation_empty_statistics (disease_name : string) m m' :
  get_mutation_statistics disease_name "missense" m = (Ok [], m') →
  get_top_mutation disease_name m = (Raise IndexError, m').
Proof.
  intros H. unfold get_top_mutation, bind, try_except. rewrite H. done.
Qed.

(** [get_top_mutation] passes [DiseaseNotFound] on and asks for missense
    mutations. *)
Lemma get_top_mutation_not_found (disease_name : string) m m' :
  get_mutation_statistics disease_name "missense" m
    = (Raise DiseaseNotFoundException, m') →
  get_top_mutation disease_name m = (Raise DiseaseNotFoundException, m').
Proof.
  intros H. unfold get_top_mutation, bind, try_except. rewrite H. done.
Qed.

End StatisticsFacts.

(** Equalities between computed values that contain rationals. *)
Ltac qc_eq :=
  match goal with
  | |- @eq Qc _ _ => apply Qc_is_canon; vm_compute; reflexivity
  end.
Ltac value_eq := first [qc_eq | reflexivity | f_equal; value_eq].

(** The statistics of the fixture disease with two studies of 5 and 15
    sequenced cases. *)
Lemma pancreatic_statistics :
  (@get_mutation_statistics nat (Fixture.services Fixture.always_up)
     "pancreatic" "missense" Fixture.start).1
  = Ok [("TP53",
         (Q2Qc (1 # 5),
          {| on_activate := Finite (Q2Qc (1 # 4));
             on_deactivate := Finite (Q2Qc (1 # 2));
             on_other := Finite (Q2Qc (1 # 4)) |}))].
Proof. vm_compute. value_eq. Qed.

(** The fixture numbers of the normalisation in binary64: 4/20 is the double
    nearest to 0.2 (the one Python prints as 0.2), the distribution is
    exactly 0.25, 0.5, 0.25, and its sum is exactly 1. *)
Lemma normalized_binary64_fixture :
  normalized_binary64 20
    (4, {| on_activate := 1; on_deactivate := 2; on_other := 1 |})
  = (0x1.999999999999ap-3%float,
     {| on_activate := 0.25%float; on_deactivate := 0.5%float;
        on_other := 0.25%float |})
  ∧ PrimFloat.add (PrimFloat.add 0.25%float 0.5%float) 0.25%float = 1%float.
Proof. split; vm_compute; reflexivity. Qed.

(** C6.  The denominator is the sum of the sequenced-case counts of all the
    studies the disease resolved to, skipped or not; every gene's count is
    divided by it and each of its three tallies by their sum, which makes
    the three add up to one.  With denominator 20 and 4 cases tallied 1, 2
    and 1 the result is 1/5 with distribution 1/4, 1/2, 1/4. *)
Theorem normalization_divides :
  (∀ (World : Type) (svc : Services World) (study_ids : list string)
     (mutation_type : string) (m : Machine World),
     ∃ d num_case m',
       collect study_ids mutation_type m = (Ok (d, num_case), m')
       ∧ (sequenced (issued (collect study_ids mutation_type) m)).*1 = study_ids
       ∧ num_case
         = Zsum (sequenced (issued (collect study_ids mutation_type) m)).*2)
  ∧ (∀ (World : Type) (svc : Services World)
       (disease_name mutation_type : string) (m : Machine World)
       (study_prefixes : list string) (id : string) (ids : list string),
       cbio_efo_map !! disease_name = Some study_prefixes →
       resolved_studies study_prefixes m = id :: ids →
       ∃ m1 d num_case m',
         _get_studies_from_disease_name disease_name m
           = (Ok (Some (id :: ids)), m1)
         ∧ collect (id :: ids) mutation_type m1 = (Ok (d, num_case), m')
         ∧ get_mutation_statistics disease_name mutation_type m
           = (normalize num_case d, m'))
  ∧ (∀ (num_case : Z) (d : MutationDict),
       num_case ≠ 0 →
       normalize num_case d
       = Ok ((λ p, (p.1, normalized num_case p.2)) <$> d))
  ∧ (∀ a d o : Z,
       a + d + o ≠ 0 →
       np_truediv a (a + d + o) = Finite (py_truediv a (a + d + o))
       ∧ np_truediv d (a + d + o) = Finite (py_truediv d (a + d + o))
       ∧ np_truediv o (a + d + o) = Finite (py_truediv o (a + d + o))
       ∧ (py_truediv a (a + d + o) + py_truediv d (a + d + o)
          + py_truediv o (a + d + o))%Qc = 1%Qc)
  ∧ normalized 20 (4, {| on_activate := 1; on_deactivate := 2; on_other := 1 |})
    = (Q2Qc (1 # 5),
       {| on_activate := Finite (Q2Qc (1 # 4));
          on_deactivate := Finite (Q2Qc (1 # 2));
          on_other := Finite (Q2Qc (1 # 4)) |})
  ∧ (Q2Qc (1 # 4) + Q2Qc (1 # 2) + Q2Qc (1 # 4))%Qc = 1%Qc
  ∧ (@get_mutation_statistics nat (Fixture.services Fixture.always_up)
       "pancreatic" "missense" Fixture.start).1
    = Ok [("TP53",
           (Q2Qc (1 # 5),
            {| on_activate := Finite (Q2Qc (1 # 4));
               on_deactivate := Finite (Q2Qc (1 # 2));
               on_other := Finite (Q2Qc (1 # 4)) |}))].
Proof.
  split; [|split; [|split; [|split; [|split; [|split]]]]].
  - intros World svc study_ids mutation_type m.
    destruct (collect_runs study_ids mutation_type m)
      as (d & num_case & m' & Hrun & _ & Hids & Hsum).
    by exists d, num_case, m'.
  - intros World svc disease_name mutation_type m study_prefixes id ids Hl Hr.
    pose proof (get_mutation_statistics_run disease_name mutation_type m) as Hrun.
    rewrite Hl, Hr in Hrun.
    destruct Hrun as (m1 & Hm1 & d & num_case & m' & Hc & _ & Hg).
    by exists m1, d, num_case, m'.
  - apply normalize_ok.
  - intros a d o Hs. rewrite !np_truediv_finite by done.
    split; [done|]. split; [done|]. split; [done|].
    by apply distribution_sums_to_one.
  - unfold normalized, np_truediv. simpl. value_eq.
  - qc_eq.
  - exact pancreatic_statistics.
Qed.

Lemma normalization_divides_witness :
  (∃ d m',
     @collect nat (Fixture.services Fixture.always_up)
       ["paad_a"; "paad_b"] "missense" Fixture.start = (Ok (d, 20), m'))
  ∧ @normalize 20 [("TP53", (4, {| on_activate := 1; on_deactivate := 2;
                                   on_other := 1 |}))]
    = Ok [("TP53",
           normalized 20 (4, {| on_activate := 1; on_deactivate := 2;
                                on_other := 1 |}))]
  ∧ (py_truediv 1 (1 + 2 + 1) + py_truediv 2 (1 + 2 + 1)
     + py_truediv 1 (1 + 2 + 1))%Qc = 1%Qc.
Proof.
  destruct normalization_divides as (Hsum & _ & Hnorm & Hdist & _).
  split; [|split].
  - destruct (Hsum nat (Fixture.services Fixture.always_up)
                ["paad_a"; "paad_b"] "missense" Fixture.start)
      as (d & num_case & m' & Hrun & _ & Hn).
    exists d, m'. rewrite Hrun, Hn. reflexivity.
  - apply (Hnorm 20). discriminate.
  - apply (Hdist 1 2 1). discriminate.
Defined.

Lemma tally_sum_positive_witness :
  Forall (λ p : string * Statistic, finite_distribution p.2.2)
    [("TP53",
      (Q2Qc (1 # 5),
       {| on_activate := Finite (Q2Qc (1 # 4));
          on_deactivate := Finite (Q2Qc (1 # 2));
          on_other := Finite (Q2Qc (1 # 4)) |}))].
Proof.
  destruct (@tally_sum_positive nat (Fixture.services Fixture.always_up))
    as [_ H].
  apply (H "pancreatic" "missense" Fixture.start).
  exact pancreatic_statistics.
Defined.

Lemma head_insert_desc {A} (key : A → Qc) (x : A) (l : list A) :
  head (insert_desc key x l)
  = match head l with
    | Some y => if decide (key x < key y)%Qc then Some y else Some x
    | None => Some x
    end.
Proof. destruct l as [|y l]; simpl; [done|]. by destruct (decide _). Qed.

Lemma head_sorted_reverse {A} (key : A → Qc) (l : list A) :
  head (sorted_reverse key l) = top_entry key l.
Proof.
  induction l as [|x l IH]; simpl; [done|].
  by rewrite head_insert_desc, IH.
Qed.


(** [int] drops the fractional part. *)
Lemma py_int_truncates (x : Qc) :
  (0 ≤ x)%Qc →
  (inject_Z (py_int x) <= x)%Q ∧ (x < inject_Z (py_int x + 1))%Q.
Proof.
  intros Hx. unfold py_int.
  assert (Hn : 0 ≤ Qnum x).
  { unfold Qcle, Qle in Hx. simpl in Hx. lia. }
  rewrite Z.quot_div_nonneg by lia.
  destruct x as [[n d] Hc]. simpl.
  change (n `div` Z.pos d) with (Qfloor (n # d)). split.
  - apply Qfloor_le.
  - apply Qlt_floor.
Qed.

Lemma py_int_examples :
  py_int (Q2Qc (45 # 1)) = 45 ∧ py_int (Q2Qc (459 # 10)) = 45
  ∧ py_int (Q2Qc (9 # 20) * hundred)%Qc = 45.
Proof. vm_compute. done. Qed.

(** The percentage in binary64.  For the fraction 9/20 the product is
    exactly 45.  For 29/100 it falls just short of 29, so that [int] gives
    28 where rounding would give 29: the fractional part is dropped from
    the float product, not from the exact one. *)
Lemma percent_binary64_examples :
  percent_binary64 9 20 = 45%float
  ∧ PrimFloat.ltb (percent_binary64 29 100) 29%float = true
  ∧ PrimFloat.leb 28%float (percent_binary64 29 100) = true.
Proof. repeat split; vm_compute; reflexivity. Qed.

Section TopMutation.

Context {World : Type} `{!Services World}.


End TopMutation.

Lemma get_top_mutation_empty_statistics_witness :
  (@get_top_mutation nat (Fixture.services Fixture.always_up)
     "quiet" Fixture.start).1 = Raise IndexError.
Proof.
  rewrite (@get_top_mutation_empty_statistics nat
             (Fixture.services Fixture.always_up) "quiet" Fixture.start
             (@get_mutation_statistics nat (Fixture.services Fixture.always_up)
                "quiet" "missense" Fixture.start).2).
  - reflexivity.
  - vm_compute. reflexivity.
Defined.

Lemma disease_not_found_iff_witness :
  (@get_mutation_statistics nat (Fixture.services Fixture.always_up)
     "unknown" "missense" Fixture.start).1 = Raise DiseaseNotFoundException
  ∧ (@get_mutation_statistics nat (Fixture.services Fixture.always_up)
       "unlisted" "missense" Fixture.start).1 = Raise DiseaseNotFoundException.
Proof.
  split.
  - apply (@disease_not_found_iff nat (Fixture.services Fixture.always_up)).
    left. reflexivity.
  - apply (@disease_not_found_iff nat (Fixture.services Fixture.always_up)).
    right. exists ["nothing"]. split; reflexivity.
Defined.

(** * Further properties *)

(** ** The relation caches, beyond the cache entries themselves *)

Lemma from_tas_evidence (s : Inhibition) :
  from_tas s = true ↔ "tas" ∈ evidence s.
Proof.
  unfold from_tas. rewrite existsb_exists. split.
  - intros (x & Hin & Heq). apply String.eqb_eq in Heq. subst.
    by apply list_elem_of_In.
  - intros Hin. exists "tas". split; [by apply list_elem_of_In|].
    by apply String.eqb_eq.
Qed.

Section RelationExtras.

Context {World : Type} `{!Services World}.

Implicit Types (m : Machine World) (K : LookupKey).

(** X1.  [find_target_drugs] never raises, whatever the database does: it
    returns a set.  It leaves the two other caches alone, keeps every entry
    the target cache had, and can only add an entry under the HGNC key of
    its argument.  Without an HGNC reference it returns the empty result and
    asks nothing. *)
Theorem find_target_drugs_frame (target : Agent) m :
  let r := find_target_drugs target m in
  (∃ res, r.1 = Ok res)
  ∧ sub_statements (self r.2) = sub_statements (self m)
  ∧ drug_targets (self r.2) = drug_targets (self m)
  ∧ (∀ K s, target_drugs (self m) !! K = Some s →
            target_drugs (self r.2) !! K = Some s)
  ∧ (∀ K, db_refs target !! "HGNC" ≠ Some K.1 ∨ K.2 ≠ "HGNC" →
          target_drugs (self r.2) !! K = target_drugs (self m) !! K)
  ∧ (db_refs target !! "HGNC" = None → r = (Ok ∅, m)).
Proof.
  intros r. subst r.
  destruct (db_refs target !! "HGNC") as [ref|] eqn:Href.
  - destruct (target_drugs (self m) !! (ref, "HGNC")) as [s0|] eqn:Hc.
    + rewrite (find_target_drugs_hit target ref s0 m Href Hc). simpl.
      split; [eauto|]. done.
    + pose proof (find_target_drugs_miss target ref m Href Hc) as Hrun.
      cbv zeta in Hrun. rewrite Hrun. clear Hrun.
      destruct ((query_relations None (_convert_term (Some (ref, "HGNC")))
                   (world m)).1) as [|stmts]; simpl.
      * split; [eauto|]. done.
      * split; [eauto|]. split; [done|]. split; [done|]. split; [|split; [|done]].
        -- intros K s Hs. rewrite lookup_insert_ne; [done|]. intros <-. congruence.
        -- intros [ref' ns] HK. simpl in HK. rewrite lookup_insert_ne; [done|].
           intros [= <- <-]. by destruct HK.
  - unfold find_target_drugs. rewrite Href. unfold ret. simpl.
    split; [eauto|]. done.
Qed.

(** X2.  What a successful lookup stores and returns for a target is
    exactly the (name, PubChem id) pairs of the subjects of the statements
    that have an evidence from the source ['tas']; a statement without one
    contributes nothing, and a subject without a PubChem reference is paired
    with none. *)
Theorem find_target_drugs_only_tas (target : Agent) (ref : string)
    (stmts : list Inhibition) m :
  db_refs target !! "HGNC" = Some ref →
  target_drugs (self m) !! (ref, "HGNC") = None →
  (query_relations None (_convert_term (Some (ref, "HGNC"))) (world m)).1
    = Statements stmts →
  ∃ res,
    (find_target_drugs target m).1 = Ok res
    ∧ target_drugs (self (find_target_drugs target m).2) !! (ref, "HGNC")
      = Some res
    ∧ ∀ nm pubchem,
        (nm, pubchem) ∈ res ↔
        ∃ s, s ∈ stmts ∧ "tas" ∈ evidence s
             ∧ nm = name (subj s) ∧ pubchem = db_refs (subj s) !! "PUBCHEM".
Proof.
  intros Href Hc Hq.
  pose proof (find_target_drugs_miss target ref m Href Hc) as Hrun.
  cbv zeta in Hrun. rewrite Hq in Hrun. rewrite Hrun. simpl.
  eexists. split; [done|]. split; [by rewrite lookup_insert_eq|].
  intros nm pubchem. rewrite elem_of_list_to_set, list_elem_of_fmap. split.
  - intros (s & [= -> ->] & Hin). apply list_elem_of_In, filter_In in Hin.
    destruct Hin as [Hin Ht]. exists s.
    split; [by apply list_elem_of_In|]. split; [by apply from_tas_evidence|done].
  - intros (s & Hin & Ht & -> & ->). exists s. split; [done|].
    apply list_elem_of_In, filter_In. split; [by apply list_elem_of_In|].
    by apply from_tas_evidence.
Qed.

(** X3.  [find_drug_targets] never raises.  Its result is the union, over
    the lookup keys of the drug, of the target sets the cache holds for
    them after the call.  The call leaves the two other caches alone, keeps
    every entry the drug cache had, and writes under no key that is not one
    of the drug's. *)
Theorem find_drug_targets_union (drug : Agent) m :
  let r := find_drug_targets drug m in
  ∃ res,
    r.1 = Ok res
    ∧ (∀ x, x ∈ res ↔
            ∃ K s, K ∈ _extract_terms drug
                   ∧ drug_targets (self r.2) !! K = Some s ∧ x ∈ s)
    ∧ sub_statements (self r.2) = sub_statements (self m)
    ∧ target_drugs (self r.2) = target_drugs (self m)
    ∧ (∀ K s, drug_targets (self m) !! K = Some s →
              drug_targets (self r.2) !! K = Some s)
    ∧ (∀ K, K ∉ _extract_terms drug →
            drug_targets (self r.2) !! K = drug_targets (self m) !! K).
Proof.
  intros r. subst r. unfold find_drug_targets.
  destruct (find_drug_targets_over_post
              (elements (_extract_terms drug)) m (NoDup_elements _))
    as (res & m' & Hrun & L).
  rewrite Hrun. simpl. exists res. split; [done|]. split.
  - intros x. rewrite (loop_result _ _ _ _ _ _ L). split.
    + intros [Hx|(K & s & HK & Hs & Hx)]; [by apply not_elem_of_empty in Hx|].
      exists K, s. by rewrite <- elem_of_elements.
    + intros (K & s & HK & Hs & Hx). right. exists K, s.
      by rewrite elem_of_elements.
  - split; [apply (loop_sub _ _ _ _ _ _ L)|].
    split; [apply (loop_tgt _ _ _ _ _ _ L)|].
    split; [apply (loop_keep _ _ _ _ _ _ L)|].
    intros K HK. apply (loop_frame _ _ _ _ _ _ L).
    by rewrite elem_of_elements.
Qed.

(** X4.  [is_nominal_drug_target] ends in one of three ways and never lets
    a database timeout through.  It raises [DrugNotFoundException] exactly
    when no key of the drug has a non-empty target set in the cache after
    the lookups, which is also what happens when every query timed out; it
    returns true exactly when the name of the target is in the set stored
    for one of the keys. *)
Theorem is_nominal_drug_target_outcome (drug target : Agent) m :
  let r := is_nominal_drug_target drug target m in
  r.2 = (find_drug_targets drug m).2
  ∧ (r.1 = Ok true ∨ r.1 = Ok false ∨ r.1 = Raise DrugNotFoundException)
  ∧ (r.1 = Raise DrugNotFoundException ↔
     ∀ K s, K ∈ _extract_terms drug →
            drug_targets (self r.2) !! K = Some s → s = ∅)
  ∧ (r.1 = Ok true ↔
     ∃ K s, K ∈ _extract_terms drug
            ∧ drug_targets (self r.2) !! K = Some s ∧ name target ∈ s).
Proof.
  intros r. subst r. unfold is_nominal_drug_target, find_drug_targets.
  destruct (find_drug_targets_over_post
              (elements (_extract_terms drug)) m (NoDup_elements _))
    as (res & m' & Hrun & L).
  unfold bind. rewrite Hrun. simpl.
  assert (Hres : ∀ x, x ∈ res ↔
            ∃ K s, K ∈ _extract_terms drug
                   ∧ drug_targets (self m') !! K = Some s ∧ x ∈ s).
  { intros x. rewrite (loop_result _ _ _ _ _ _ L). split.
    - intros [Hx|(K & s & HK & Hs & Hx)]; [by apply not_elem_of_empty in Hx|].
      exists K, s. by rewrite <- elem_of_elements.
    - intros (K & s & HK & Hs & Hx). right. exists K, s.
      by rewrite elem_of_elements. }
  destruct (decide (res = ∅)) as [->|Hne]; unfold raise, ret; simpl.
  - split; [done|]. split; [by right; right|]. split.
    + split; [|done]. intros _ K s HK Hs.
      apply leibniz_equiv, elem_of_equiv_empty. intros x Hx.
      apply (not_elem_of_empty (C := gset string) x). apply Hres. by exists K, s.
    + split; [done|]. intros (K & s & HK & Hs & Hx).
      exfalso. apply (not_elem_of_empty (C := gset string) (name target)).
      apply Hres. by exists K, s.
  - split; [done|]. split.
    { destruct (bool_decide (name target ∈ res)); [by left|by right; left]. }
    split.
    + split; [done|]. intros Hall. exfalso. apply Hne.
      apply leibniz_equiv, elem_of_equiv_empty. intros x Hx.
      apply Hres in Hx as (K & s & HK & Hs & Hx).
      rewrite (Hall K s HK Hs) in Hx. by apply not_elem_of_empty in Hx.
    + rewrite <- Hres. split.
      * intros [= Hb]. by apply bool_decide_eq_true in Hb.
      * intros Hin. f_equal. by apply bool_decide_eq_true.
Qed.

End RelationExtras.

Lemma find_target_drugs_only_tas_witness :
  ∃ res,
    (@find_target_drugs nat (Fixture.services Fixture.always_up)
       Fixture.braf Fixture.start).1 = Ok res
    ∧ ("Sorafenib", None) ∈ res.
Proof.
  destruct (@find_target_drugs_only_tas nat (Fixture.services Fixture.always_up)
              Fixture.braf "1097"
              (Fixture.relations None (Some "1097@HGNC")) Fixture.start
              eq_refl eq_refl eq_refl) as (res & Hres & _ & Hin).
  exists res. split; [exact Hres|].
  apply Hin. exists (Fixture.inhibits (Fixture.plain "Sorafenib") Fixture.braf "tas").
  split; [|split; [|split]].
  - apply list_elem_of_In. vm_compute. right. left. reflexivity.
  - left.
  - reflexivity.
  - reflexivity.
Defined.

(** ** The mutation matcher as a memo *)

(** X5.  What [re.match] hands back is well formed: two single upper-case
    letters around a non-empty run of digits, which together are the start
    of the string; parsing those three groups alone gives them back. *)
Theorem re_match_mutation_groups (s wt pos sub : string) :
  re_match_mutation s = Some (wt, pos, sub) →
  (∃ c d, wt = String c EmptyString ∧ sub = String d EmptyString
          ∧ PyStr.is_upper c = true ∧ PyStr.is_upper d = true)
  ∧ pos ≠ EmptyString ∧ all_digits pos = true
  ∧ (∃ rest, s = wt +:+ pos +:+ sub +:+ rest)
  ∧ re_match_mutation (wt +:+ pos +:+ sub) = Some (wt, pos, sub).
Proof.
  intros H. apply re_match_mutation_prefix in H
    as (c & ds & d & rest & -> & Hc & Hne & Hds & Hd & -> & -> & ->).
  split; [by exists c, d|]. split; [done|]. split; [done|]. split.
  - exists rest. done.
  - apply re_match_mutation_prefix. exists c, ds, d, EmptyString. done.
Qed.

Lemma re_match_mutation_groups_witness :
  re_match_mutation ("V" +:+ "600" +:+ "E") = Some ("V", "600", "E").
Proof.
  apply (re_match_mutation_groups "V600E*" "V" "600" "E" eq_refl).
Defined.

Section MatcherExtras.

Context {World : Type} `{!Services World}.

Implicit Types (m : Machine World).

(** X6.  The per-protein cache works as a memo.  A call never raises,
    issues at most one active-form query, touches neither relation cache,
    changes no entry of another protein and never replaces an entry.  Once
    a protein has an entry, a call for it leaves the agent exactly as it
    was, whatever the mutation string; this is the state a call whose
    string parsed leaves behind. *)
Theorem find_mutation_effect_memo (protein_name s : string) m :
  let r := find_mutation_effect protein_name s m in
  (∃ e, r.1 = Ok e)
  ∧ (length (issued (find_mutation_effect protein_name s) m) ≤ 1)%nat
  ∧ target_drugs (self r.2) = target_drugs (self m)
  ∧ drug_targets (self r.2) = drug_targets (self m)
  ∧ (∀ p stmts, sub_statements (self m) !! p = Some stmts →
                sub_statements (self r.2) !! p = Some stmts)
  ∧ (∀ p, p ≠ protein_name →
          sub_statements (self r.2) !! p = sub_statements (self m) !! p)
  ∧ (is_Some (sub_statements (self m) !! protein_name) → r.2 = m)
  ∧ (re_match_mutation s ≠ None →
     ∀ s', (find_mutation_effect protein_name s' r.2).2 = r.2).
Proof.
  intros r. subst r.
  assert (Hcached : ∀ m0 s0, is_Some (sub_statements (self m0) !! protein_name) →
            (find_mutation_effect protein_name s0 m0).2 = m0).
  { intros m0 s0 [stmts Hs].
    destruct (re_match_mutation s0) as [[[wt pos] sub]|] eqn:Hp.
    - rewrite (find_mutation_effect_parsed _ _ _ _ _ _ Hp). simpl. by rewrite Hs.
    - unfold find_mutation_effect. by rewrite Hp. }
  destruct (re_match_mutation s) as [[[wt pos] sub]|] eqn:Hp.
  - pose proof (find_mutation_effect_parsed protein_name s wt pos sub m Hp) as Hrun.
    destruct (sub_statements (self m) !! protein_name) as [stmts|] eqn:Hc.
    + rewrite (issued_app _ _ []) by (by rewrite Hrun, app_nil_r).
      rewrite Hrun. simpl.
      split; [eauto|]. split; [lia|]. do 5 (split; [done|]).
      intros _ s'. apply Hcached. by rewrite Hc.
    + rewrite (issued_app _ _ [EvActiveForms protein_name]) by (by rewrite Hrun).
      rewrite Hrun. simpl.
      split; [eauto|]. split; [lia|]. split; [done|]. split; [done|].
      split; [|split; [|split]].
      * intros p stmts Hs. rewrite lookup_insert_ne; [done|]. intros <-. congruence.
      * intros p Hne. by rewrite lookup_insert_ne.
      * intros [? ?]. done.
      * intros _ s'. apply Hcached. simpl. rewrite lookup_insert_eq. eauto.
  - assert (Hrun : find_mutation_effect protein_name s m = (Ok None, m)).
    { unfold find_mutation_effect. by rewrite Hp. }
    rewrite (issued_app _ _ []) by (by rewrite Hrun, app_nil_r).
    rewrite Hrun. simpl.
    split; [eauto|]. split; [lia|]. do 5 (split; [done|]). done.
Qed.

End MatcherExtras.

Lemma find_mutation_effect_memo_witness :
  let m1 := (@find_mutation_effect nat (Fixture.services Fixture.always_up)
               "BRAF" "V600E" Fixture.start).2 in
  (@find_mutation_effect nat (Fixture.services Fixture.always_up)
     "BRAF" "G469A" m1).2 = m1.
Proof.
  destruct (@find_mutation_effect_memo nat (Fixture.services Fixture.always_up)
              "BRAF" "V600E" Fixture.start) as (_ & _ & _ & _ & _ & _ & _ & H).
  apply H. discriminate.
Defined.

(** ** Lookup keys and query strings *)

Lemma contains_char_app (c : ascii) (a b : string) :
  PyStr.contains_char c (a +:+ String c b) = true.
Proof.
  induction a as [|x a IH]; simpl.
  - by rewrite Ascii.eqb_refl.
  - by destruct (Ascii.eqb c x).
Qed.

Lemma at_split_unique (r1 n1 r2 n2 : string) :
  PyStr.contains_char "@" n1 = false → PyStr.contains_char "@" n2 = false →
  r1 +:+ String "@" n1 = r2 +:+ String "@" n2 → r1 = r2 ∧ n1 = n2.
Proof.
  intros H1 H2. revert r2.
  induction r1 as [|c r1 IH]; intros [|c' r2]; simpl; intros Heq.
  - by inversion Heq.
  - inversion Heq; subst. by rewrite contains_char_app in H1.
  - inversion Heq; subst. by rewrite contains_char_app in H2.
  - inversion Heq; subst. destruct (IH r2) as [-> ->]; done.
Qed.

(** X7.  Two lookup keys whose namespaces contain no ['@'] are sent to the
    database as the same string only if they are the same key; without that
    condition they may collide, as [('a@b', 'c')] and [('a', 'b@c')] do. *)
Theorem convert_term_injective (t1 t2 : LookupKey) :
  PyStr.contains_char "@" t1.2 = false →
  PyStr.contains_char "@" t2.2 = false →
  _convert_term (Some t1) = _convert_term (Some t2) → t1 = t2.
Proof.
  destruct t1 as [r1 n1], t2 as [r2 n2]. simpl. intros H1 H2 [= Heq].
  destruct (at_split_unique r1 n1 r2 n2 H1 H2 Heq) as [-> ->]. done.
Qed.

Lemma convert_term_injective_witness :
  ("1097", "HGNC") = ("1097", "HGNC")
  ∧ _convert_term (Some ("a@b", "c")) = _convert_term (Some ("a", "b@c")).
Proof.
  split; [|reflexivity].
  apply (convert_term_injective ("1097", "HGNC") ("1097", "HGNC"));
    reflexivity.
Defined.

(** ** Resolving a disease to its studies *)

Section StudyExtras.

Context {World : Type} `{!Services World}.

Implicit Types (m : Machine World).

Lemma studies_loop_log (study_prefixes acc : list string) m :
  ∃ m',
    for_each
      (λ study_ids sp,
         let! found := external (get_cancer_studies sp) (λ _, EvStudies sp) in
         ret (study_ids ++ found)%list)
      study_prefixes acc m
    = (Ok (acc ++ listed_studies study_prefixes (world m))%list, m')
    ∧ self m' = self m
    ∧ trace m' = (trace m ++ (EvStudies <$> study_prefixes))%list.
Proof.
  revert acc m. induction study_prefixes as [|sp rest IH]; intros acc m.
  - exists m. simpl. by rewrite !app_nil_r.
  - destruct (IH (acc ++ (get_cancer_studies sp (world m)).1)%list
                {| self := self m; world := (get_cancer_studies sp (world m)).2;
                   trace := (trace m ++ [EvStudies sp])%list |})
      as (m' & Hm' & Hself & Htrace).
    exists m'. cbn [for_each listed_studies]. unfold bind at 1.
    unfold bind at 1. unfold external at 1. unfold ret at 1.
    destruct (get_cancer_studies sp (world m)) as [found w].
    simpl in *. rewrite Hm'. rewrite <- app_assoc. split; [done|].
    split; [done|]. rewrite Htrace, <- app_assoc. done.
Qed.

(** X8.  [_get_studies_from_disease_name] returns null for a disease that
    is not in the table and nothing else then happens.  For a disease in the
    table it asks for the studies of each prefix once, in the order of the
    table, and returns the studies listed without repetition: every listed
    study once, and no other.  It never raises and leaves the caches as
    they are. *)
Theorem get_studies_deduplicated (disease_name : string) m :
  let r := _get_studies_from_disease_name disease_name m in
  self r.2 = self m
  ∧ match cbio_efo_map !! disease_name with
    | None => r = (Ok None, m)
    | Some study_prefixes =>
        ∃ study_ids,
          r.1 = Ok (Some study_ids)
          ∧ NoDup study_ids
          ∧ (∀ x, x ∈ study_ids ↔ x ∈ listed_studies study_prefixes (world m))
          ∧ trace r.2 = (trace m ++ (EvStudies <$> study_prefixes))%list
    end.
Proof.
  intros r. subst r.
  destruct (cbio_efo_map !! disease_name) as [study_prefixes|] eqn:Hl.
  - destruct (studies_loop_log study_prefixes [] m) as (m' & Hm' & Hself & Htr).
    assert (Hrun : _get_studies_from_disease_name disease_name m
                   = (Ok (Some (resolved_studies study_prefixes m)), m')).
    { unfold _get_studies_from_disease_name. rewrite Hl.
      unfold bind at 1. by rewrite Hm'. }
    rewrite Hrun. simpl.
    split; [done|]. eexists. split; [done|].
    split; [apply NoDup_elements|]. split; [|done].
    intros x. unfold resolved_studies.
    by rewrite elem_of_elements, elem_of_list_to_set.
  - by rewrite (get_studies_absent _ _ Hl).
Qed.

(** X9.  [get_mutation_statistics] raises nothing but
    [DiseaseNotFoundException] and [ZeroDivisionError].  The second is
    raised exactly when the studies resolved for the disease report no
    sequenced case in total although a gene was recorded for one of them:
    the division by the denominator is not guarded. *)
Theorem get_mutation_statistics_raises (disease_name mutation_type : string) m :
  let r := get_mutation_statistics disease_name mutation_type m in
  (∀ e, r.1 = Raise e →
        e = DiseaseNotFoundException ∨ e = ZeroDivisionError)
  ∧ (r.1 = Raise ZeroDivisionError ↔
     ∃ study_prefixes id ids m1 d m',
       cbio_efo_map !! disease_name = Some study_prefixes
       ∧ _get_studies_from_disease_name disease_name m
         = (Ok (Some (id :: ids)), m1)
       ∧ collect (id :: ids) mutation_type m1 = (Ok (d, 0), m')
       ∧ d ≠ []).
Proof.
  intros r. subst r.
  pose proof (get_mutation_statistics_run disease_name mutation_type m) as Hrun.
  destruct (cbio_efo_map !! disease_name) as [study_prefixes|] eqn:Hl.
  - destruct Hrun as (m1 & Hm1 & Hrun).
    destruct (resolved_studies study_prefixes m) as [|id ids] eqn:Hr.
    + rewrite Hrun. simpl. split.
      * intros e [= <-]. by left.
      * split; [done|].
        intros (sp & id & ids & m1' & d & m' & _ & Hm1' & _). congruence.
    + destruct Hrun as (d & num_case & m' & Hc & _ & ->). simpl. split.
      * intros e He. apply normalize_raise in He as [-> _]. by right.
      * split.
        -- intros He. pose proof (normalize_raise _ _ _ He) as [_ ->].
           exists study_prefixes, id, ids, m1, d, m'.
           split; [done|]. split; [done|]. split; [done|].
           intros ->. done.
        -- intros (sp & id' & ids' & m1' & d' & m'' & _ & Hm1' & Hc' & Hne).
           rewrite Hm1 in Hm1'. inversion Hm1'; subst.
           rewrite Hc in Hc'. inversion Hc'; subst.
           destruct d' as [|[k v] d']; [done|]. done.
  - rewrite Hrun. simpl. split.
    + intros e [= <-]. by left.
    + split; [done|]. intros (sp & id & ids & m1 & d & m' & ? & _). done.
Qed.

End StudyExtras.

Lemma get_mutation_statistics_raises_witness :
  (@get_mutation_statistics nat unsequenced_services
     "pancreatic" "missense" Fixture.start).1 = Raise ZeroDivisionError.
Proof.
  destruct (@get_mutation_statistics_raises nat unsequenced_services
              "pancreatic" "missense" Fixture.start) as [_ [_ H]].
  apply H.
  exists ["paad"],
    (hd "" (@resolved_studies nat unsequenced_services ["paad"] Fixture.start)),
    (tl (@resolved_studies nat unsequenced_services ["paad"] Fixture.start)).
  eexists _, _, _.
  split; [reflexivity|]. split; [vm_compute; reflexivity|].
  split; [vm_compute; reflexivity|]. discriminate.
Defined.

(** ** The study loop, gene by gene *)

Lemma py_max_scan {A} (key : A → nat) (l pre post : list A) (x : A) :
  Forall (λ y, (key y < key x)%nat) pre →
  Forall (λ y, (key y ≤ key x)%nat) post →
  ∃ before after,
    (pre ++ x :: post ++ l = before ++ py_max key x l :: after)%list
    ∧ Forall (λ y, (key y < key (py_max key x l))%nat) before
    ∧ Forall (λ y, (key y ≤ key (py_max key x l))%nat) after.
Proof.
  revert pre post x. induction l as [|y l IH]; intros pre post x Hpre Hpost.
  - exists pre, post. by rewrite app_nil_r.
  - change (py_max key x (y :: l))
      with (py_max key (if (key x <? key y)%nat then y else x) l).
    destruct (Nat.ltb_spec (key x) (key y)) as [Hlt|Hge].
    + destruct (IH (pre ++ x :: post)%list [] y) as (before & after & Heq & Hb & Ha).
      * apply Forall_app. split.
        -- eapply Forall_impl; [exact Hpre|]. simpl. intros; lia.
        -- constructor; [done|].
           eapply Forall_impl; [exact Hpost|]. simpl. intros; lia.
      * constructor.
      * exists before, after. split; [|done].
        rewrite <- Heq. simpl. by rewrite <- app_assoc.
    + destruct (IH pre (post ++ [y])%list x) as (before & after & Heq & Hb & Ha).
      * done.
      * apply Forall_app. split; [done|]. by repeat constructor.
      * exists before, after. split; [|done].
        rewrite <- Heq. by rewrite <- app_assoc.
Qed.

(** X10.  The top gene of a study is the first gene, in the order of the
    records, that has the largest number of records: no gene has more, and
    every gene listed before its first occurrence has strictly fewer. *)
Theorem top_gene_first_most_frequent (g0 : string) (gs : list string) :
  let genes := g0 :: gs in
  let top_gene := py_max (count genes) g0 gs in
  ∃ before after,
    genes = (before ++ top_gene :: after)%list
    ∧ Forall (λ g, (count genes g < count genes top_gene)%nat) before
    ∧ Forall (λ g, (count genes g ≤ count genes top_gene)%nat) after.
Proof.
  intros genes top_gene.
  destruct (py_max_scan (count genes) gs [] [] g0) as (before & after & Heq & Hb & Ha);
    [constructor|constructor|].
  exists before, after. done.
Qed.

Lemma dict_get_set_eq {V} (d : list (string * V)) k v :
  dict_get (dict_set d k v) k = Some v.
Proof.
  induction d as [|[k' v'] d IH]; simpl.
  - by rewrite String.eqb_refl.
  - destruct (String.eqb k' k) eqn:E; simpl.
    + by rewrite String.eqb_refl.
    + by rewrite E.
Qed.

Lemma dict_get_set_ne {V} (d : list (string * V)) k k' v :
  k' ≠ k → dict_get (dict_set d k v) k' = dict_get d k'.
Proof.
  intros Hne. induction d as [|[k0 v0] d IH]; simpl.
  - destruct (String.eqb_spec k k'); [congruence|done].
  - destruct (String.eqb_spec k0 k) as [->|Hk0]; simpl.
    + destruct (String.eqb_spec k k'); [congruence|].
      destruct (String.eqb_spec k k'); [congruence|done].
    + by rewrite IH.
Qed.

Lemma dict_get_None {V} (d : list (string * V)) k :
  dict_get d k = None ↔ k ∉ dict_keys d.
Proof.
  unfold dict_keys. induction d as [|[k' v'] d IH]; csimpl.
  - split; [intros _ H; by apply elem_of_nil in H|done].
  - destruct (String.eqb_spec k' k) as [->|Hne].
    + split; [done|]. intros H. exfalso. apply H. left.
    + rewrite IH. rewrite not_elem_of_cons. naive_solver.
Qed.

Lemma dict_set_keys {V} (d : list (string * V)) k v :
  dict_keys (dict_set d k v)
  = if decide (k ∈ dict_keys d) then dict_keys d else (dict_keys d ++ [k])%list.
Proof.
  unfold dict_keys. induction d as [|[k' v'] d IH]; csimpl.
  - destruct (decide (k ∈ [])) as [H|_]; [by apply elem_of_nil in H|done].
  - destruct (String.eqb_spec k' k) as [->|Hne]; csimpl.
    + destruct (decide (k ∈ k :: d.*1)) as [_|H]; [done|]. exfalso. apply H. left.
    + rewrite IH. destruct (decide (k ∈ d.*1)) as [Hin|Hnin].
      * destruct (decide (k ∈ k' :: d.*1)) as [_|H]; [done|].
        exfalso. apply H. by right.
      * destruct (decide (k ∈ k' :: d.*1)) as [H|_]; [|done].
        apply elem_of_cons in H as [->|H]; done.
Qed.

Lemma dict_set_NoDup {V} (d : list (string * V)) k v :
  NoDup (dict_keys d) → NoDup (dict_keys (dict_set d k v)).
Proof.
  intros Hnd. rewrite dict_set_keys.
  destruct (decide (k ∈ dict_keys d)); [done|].
  apply NoDup_app. split; [done|]. split.
  - intros x Hx [->|H]%elem_of_cons; [done|]. by apply elem_of_nil in H.
  - apply NoDup_singleton.
Qed.

Lemma record_mutation_NoDup (d : MutationDict) g key :
  NoDup (dict_keys d) → NoDup (dict_keys (record_mutation d g key)).
Proof.
  intros Hnd. unfold record_mutation.
  destruct (dict_get d g) as [[n e]|]; by apply dict_set_NoDup.
Qed.

Lemma record_mutation_count (d : MutationDict) g key :
  case_count (record_mutation d g key) g = case_count d g + 1
  ∧ ∀ g', g' ≠ g → dict_get (record_mutation d g key) g' = dict_get d g'.
Proof.
  unfold record_mutation, case_count.
  destruct (dict_get d g) as [[n e]|] eqn:Hg.
  - rewrite dict_get_set_eq. simpl. split; [done|].
    intros g' Hne. by apply dict_get_set_ne.
  - rewrite dict_get_set_eq. simpl. split; [done|].
    intros g' Hne. by apply dict_get_set_ne.
Qed.

Section StudyLoopExtras.

Context {World : Type} `{!Services World}.

Implicit Types (m : Machine World).

Lemma record_step_cases (top_gene : string) (d : MutationDict)
    (g a : string) m :
  ∃ d' m',
    record_step top_gene d (g, a) m = (Ok d', m')
    ∧ if String.eqb g top_gene
      then ∃ key, d' = record_mutation d g key
      else d' = d.
Proof.
  unfold record_step. destruct (String.eqb g top_gene); simpl.
  - destruct (find_mutation_effect_runs g a m) as (r & m' & evs & Hrun & _).
    unfold bind. rewrite Hrun. unfold ret. eauto.
  - unfold ret. eauto.
Qed.

Lemma record_loop_counts (top_gene : string) (l : list (string * string))
    (d : MutationDict) m :
  NoDup (dict_keys d) →
  ∃ d' m',
    for_each (record_step top_gene) l d m = (Ok d', m')
    ∧ NoDup (dict_keys d')
    ∧ (∀ g, g ≠ top_gene → dict_get d' g = dict_get d g)
    ∧ case_count d' top_gene
      = case_count d top_gene + Z.of_nat (count l.*1 top_gene).
Proof.
  intros Hnd.
  destruct (for_each_invariant (record_step top_gene)
              (λ seen d' _,
                 NoDup (dict_keys d')
                 ∧ (∀ g, g ≠ top_gene → dict_get d' g = dict_get d g)
                 ∧ case_count d' top_gene
                   = case_count d top_gene + Z.of_nat (count seen.*1 top_gene))
              l) with (seen := @nil (string * string)) (a := d) (m := m)
    as (d' & m' & Hrun & HJ).
  - intros seen [g a] d1 m1 (Hnd1 & Hother & Hcount).
    destruct (record_step_cases top_gene d1 g a m1) as (d2 & m2 & Hrun & Hcase).
    exists d2, m2. split; [done|].
    rewrite fmap_app. unfold count in *. rewrite List.filter_app, length_app.
    simpl. rewrite String.eqb_sym.
    destruct (String.eqb_spec g top_gene) as [->|Hne].
    + destruct Hcase as [key ->].
      destruct (record_mutation_count d1 top_gene key) as [Hc Ho].
      split; [by apply record_mutation_NoDup|]. split.
      * intros g' Hg'. rewrite Ho by done. by apply Hother.
      * rewrite Hc, Hcount. simpl. lia.
    + subst d2. split; [done|]. split; [done|]. rewrite Hcount. simpl. lia.
  - split; [done|]. split; [done|]. unfold count. simpl. lia.
  - exists d', m'. done.
Qed.

Lemma study_step_effect (gene_list : list string) (mutation_type : string)
    (d : MutationDict) (n : Z) (study_id : string) m :
  NoDup (dict_keys d) →
  let mutations :=
    (get_mutations study_id gene_list mutation_type
       (get_num_sequenced study_id (world m)).2).1 in
  ∃ d' n' m',
    study_step gene_list mutation_type (d, n) study_id m = (Ok (d', n'), m')
    ∧ NoDup (dict_keys d')
    ∧ match gene_symbol mutations with
      | [] => d' = d
      | g0 :: gs =>
          let top_gene := py_max (count (g0 :: gs)) g0 gs in
          (∀ g, g ≠ top_gene → dict_get d' g = dict_get d g)
          ∧ case_count d' top_gene
            = case_count d top_gene
              + Z.of_nat (count (zip (g0 :: gs) (amino_acid_change mutations)).*1
                            top_gene)
      end.
Proof.
  intros Hnd mutations. subst mutations.
  rewrite study_step_run. cbv zeta.
  destruct (gene_symbol _) as [|g0 gs] eqn:Hg.
  - eexists _, _, _. done.
  - match goal with
    | |- context [for_each ?b ?l d ?m2] =>
        destruct (record_loop_counts
                    (py_max (count (g0 :: gs)) g0 gs) l d m2 Hnd)
          as (d2 & m2' & Hloop & Hnd2 & Hother & Hcount)
    end.
    rewrite Hloop. eexists _, _, _. done.
Qed.

(** X11.  A study changes the dictionary for its top gene only: the records
    of every other gene of the study are ignored.  The count of the top
    gene grows by the number of its records that have an amino-acid change
    paired with them, which is the number of its records when the two
    columns have the same length; a study without records changes
    nothing. *)
Theorem study_records_only_top_gene (gene_list : list string)
    (mutation_type : string) (d d' : MutationDict) (n n' : Z)
    (study_id : string) m m' :
  study_step gene_list mutation_type (d, n) study_id m = (Ok (d', n'), m') →
  NoDup (dict_keys d) →
  let mutations :=
    (get_mutations study_id gene_list mutation_type
       (get_num_sequenced study_id (world m)).2).1 in
  match gene_symbol mutations with
  | [] => d' = d
  | g0 :: gs =>
      let top_gene := py_max (count (g0 :: gs)) g0 gs in
      (∀ g, g ≠ top_gene → dict_get d' g = dict_get d g)
      ∧ case_count d' top_gene
        = case_count d top_gene
          + Z.of_nat (count (zip (g0 :: gs) (amino_acid_change mutations)).*1
                        top_gene)
      ∧ (length (amino_acid_change mutations) = length (g0 :: gs) →
         case_count d' top_gene
         = case_count d top_gene + Z.of_nat (count (g0 :: gs) top_gene))
  end.
Proof.
  intros Hrun Hnd mutations.
  destruct (study_step_effect gene_list mutation_type d n study_id m Hnd)
    as (d2 & n2 & m2 & Hrun2 & _ & Heff).
  rewrite Hrun in Hrun2. inversion Hrun2; subst. subst mutations.
  destruct (gene_symbol _) as [|g0 gs]; [done|].
  destruct Heff as [Hother Hcount]. split; [done|]. split; [done|].
  intros Hlen. rewrite Hcount. do 3 f_equal.
  apply fst_zip. rewrite Hlen. done.
Qed.

Lemma collect_NoDup (study_ids : list string) (mutation_type : string) m
    (d : MutationDict) (num_case : Z) m' :
  collect study_ids mutation_type m = (Ok (d, num_case), m') →
  NoDup (dict_keys d).
Proof.
  intros Hrun.
  destruct (for_each_invariant (study_step _get_gene_list mutation_type)
              (λ _ acc _, NoDup (dict_keys acc.1)) study_ids)
    with (seen := @nil string) (a := ([] : MutationDict, 0)) (m := m)
    as ([d1 n1] & m1 & Hrun1 & Hnd).
  - intros seen x [d0 n0] m0 Hnd0. simpl in Hnd0.
    destruct (study_step_effect _get_gene_list mutation_type d0 n0 x m0 Hnd0)
      as (d2 & n2 & m2 & Hstep & Hnd2 & _).
    exists (d2, n2), m2. done.
  - constructor.
  - unfold collect in Hrun. rewrite Hrun1 in Hrun. by inversion Hrun; subst.
Qed.

Lemma normalize_keys (num_case : Z) (d : MutationDict)
    (stats : list (string * Statistic)) :
  normalize num_case d = Ok stats → dict_keys stats = dict_keys d.
Proof.
  destruct (decide (num_case = 0)) as [->|Hn].
  - destruct d as [|[k v] d]; simpl; [|done]. by intros [= <-].
  - rewrite normalize_ok by done. intros [= <-]. unfold dict_keys.
    rewrite <- list_fmap_compose. done.
Qed.

(** X12.  The mapping [get_mutation_statistics] returns has each gene once:
    the entries are keyed by distinct gene symbols, however many studies
    had the same top gene. *)
Theorem statistics_genes_distinct (disease_name mutation_type : string) m
    (stats : list (string * Statistic)) :
  (get_mutation_statistics disease_name mutation_type m).1 = Ok stats →
  NoDup (dict_keys stats).
Proof.
  pose proof (get_mutation_statistics_run disease_name mutation_type m) as Hrun.
  destruct (cbio_efo_map !! disease_name) as [study_prefixes|].
  - destruct Hrun as (m1 & _ & Hrun).
    destruct (resolved_studies study_prefixes m) as [|id ids].
    + by rewrite Hrun.
    + destruct Hrun as (d & num_case & m' & Hc & _ & ->). simpl. intros Hn.
      rewrite (normalize_keys _ _ _ Hn). by eapply collect_NoDup.
  - by rewrite Hrun.
Qed.

Lemma get_mutation_statistics_exn (disease_name mutation_type : string) m
    (e : Exn) :
  (get_mutation_statistics disease_name mutation_type m).1 = Raise e →
  e = DiseaseNotFoundException ∨ e = ZeroDivisionError.
Proof.
  pose proof (get_mutation_statistics_run disease_name mutation_type m) as Hrun.
  destruct (cbio_efo_map !! disease_name) as [study_prefixes|].
  - destruct Hrun as (m1 & _ & Hrun).
    destruct (resolved_studies study_prefixes m) as [|id ids].
    + rewrite Hrun. intros [= <-]. by left.
    + destruct Hrun as (d & num_case & m' & _ & _ & ->). simpl.
      intros He. apply normalize_raise in He as [-> _]. by right.
  - rewrite Hrun. intros [= <-]. by left.
Qed.

(** X13.  [get_top_mutation] never returns null.  It raises [IndexError]
    exactly when the statistics have no entry, passes on unchanged every
    exception of [get_mutation_statistics], and otherwise returns a gene
    with a percentage; the agent is left as [get_mutation_statistics]
    leaves it. *)
Theorem get_top_mutation_never_null (disease_name : string) m :
  let r := get_top_mutation disease_name m in
  let stats := get_mutation_statistics disease_name "missense" m in
  r.2 = stats.2
  ∧ r.1 ≠ Ok None
  ∧ (r.1 = Raise IndexError ↔ stats.1 = Ok [])
  ∧ (∀ e, e ≠ IndexError → (r.1 = Raise e ↔ stats.1 = Raise e)).
Proof.
  intros r stats. subst r stats.
  pose proof (get_mutation_statistics_exn disease_name "missense" m) as Hexn.
  unfold get_top_mutation, bind, try_except.
  destruct (get_mutation_statistics disease_name "missense" m)
    as [[l|e] m'] eqn:Hrun; simpl in *.
  - pose proof (head_sorted_reverse (λ x : string * Statistic, x.2.1) l) as Hh.
    destruct (sorted_reverse _ l) as [|top rest] eqn:Hs; simpl.
    + assert (l = []) as ->.
      { destruct l as [|p l]; [done|]. simpl in Hh.
        destruct (top_entry _ l); [destruct (decide _)|]; done. }
      split; [done|]. split; [done|]. split; [done|].
      intros e He. split; [|done]. intros [= <-]. done.
    + assert (l ≠ []) by (intros ->; done).
      split; [done|]. split; [done|]. split.
      * split; [done|]. intros [= ->]. done.
      * intros e He. split; done.
  - destruct (decide (e = DiseaseNotFoundException)) as [->|Hne]; simpl.
    + split; [done|]. split; [done|]. split; [done|].
      intros e He. split; intros [= <-]; reflexivity.
    + split; [done|]. split; [done|]. split.
      * split; [|done]. intros [= ->].
        destruct (Hexn IndexError eq_refl); done.
      * intros e' He'. split; intros [= <-]; reflexivity.
Qed.

End StudyLoopExtras.

Lemma study_records_only_top_gene_witness :
  ∃ d' n' m',
    @study_step nat (Fixture.services Fixture.always_up)
      _get_gene_list "missense" ([], 0) "paad_a" Fixture.start
    = (Ok (d', n'), m')
    ∧ dict_get d' "KRAS" = None
    ∧ case_count d' "TP53" = 3.
Proof.
  destruct (@study_step nat (Fixture.services Fixture.always_up)
              _get_gene_list "missense" ([], 0) "paad_a" Fixture.start)
    as [[[d' n']|e] m'] eqn:Hrun; [|vm_compute in Hrun; discriminate].
  pose proof (@study_records_only_top_gene nat
                (Fixture.services Fixture.always_up)
                _get_gene_list "missense" [] d' 0 n' "paad_a" Fixture.start m'
                Hrun (NoDup_nil_2 : NoDup (dict_keys [])))
    as H.
  cbv zeta in H.
  change (gene_symbol _) with ["TP53"; "KRAS"; "TP53"; "TP53"] in H.
  cbv zeta in H. destruct H as (Hother & Hcount & _).
  exists d', n', m'. split; [reflexivity|]. split.
  - exact (Hother "KRAS" ltac:(discriminate)).
  - exact Hcount.
Defined.

Lemma statistics_genes_distinct_witness :
  NoDup ["TP53"].
Proof.
  apply (@statistics_genes_distinct nat (Fixture.services Fixture.always_up)
           "pancreatic" "missense" Fixture.start
           [("TP53",
             (Q2Qc (1 # 5),
              {| on_activate := Finite (Q2Qc (1 # 4));
                 on_deactivate := Finite (Q2Qc (1 # 2));
                 on_other := Finite (Q2Qc (1 # 4)) |}))]).
  exact pancreatic_statistics.
Defined.


(** ** The disease table loader *)

Lemma split_fields_spec (sep : ascii) (s f : string) (fs : list string) :
  PyText.split_fields sep s = (f, fs) →
  count_char sep f = 0%nat
  ∧ length fs = count_char sep s
  ∧ match fs with
    | [] => s = f
    | g :: _ => ∃ rest, s = f +:+ String sep rest
                        ∧ PyText.split_fields sep rest = (g, tl fs)
    end.
Proof.
  revert f fs. induction s as [|c s IH]; simpl; intros f fs H.
  - by inversion H.
  - destruct (PyText.split_fields sep s) as [f0 fs0] eqn:Hs.
    destruct (IH f0 fs0 eq_refl) as (Hf0 & Hlen & Hshape).
    destruct (Ascii.eqb_spec c sep) as [->|Hne].
    + inversion H; subst. simpl. split; [done|]. split; [by rewrite Hlen|].
      exists s. done.
    + inversion H; subst. simpl.
      destruct (Ascii.eqb_spec c sep) as [|_]; [done|].
      split; [done|]. split; [done|].
      destruct fs as [|g fs]; [by rewrite Hshape|].
      destruct Hshape as (rest & -> & Hrest). exists rest. done.
Qed.

Lemma split_fields_no_sep (sep : ascii) (s : string) :
  count_char sep s = 0%nat → PyText.split_fields sep s = (s, []).
Proof.
  induction s as [|c s IH]; simpl; [done|].
  destruct (Ascii.eqb_spec c sep) as [->|Hne]; [done|].
  intros H. by rewrite (IH H).
Qed.

Lemma split_fields_app (sep : ascii) (a b : string) :
  count_char sep a = 0%nat →
  PyText.split_fields sep (a +:+ String sep b)
  = (a, (PyText.split_fields sep b).1 :: (PyText.split_fields sep b).2).
Proof.
  induction a as [|c a IH]; simpl.
  - intros _. rewrite Ascii.eqb_refl. by destruct (PyText.split_fields sep b).
  - destruct (Ascii.eqb_spec c sep) as [->|Hne]; [done|].
    intros H. by rewrite (IH H).
Qed.

(** X15.  A line gives a pair exactly when, once the white space at its two
    ends is removed, it is an identifier, one tab, and another identifier,
    neither with a tab in it; the pair is those two.  Every other line, a
    blank one included, makes the unpacking fail. *)
Theorem parse_line_exactly_one_tab (lin cbio_id efo_id : string) :
  (parse_line lin = Some (cbio_id, efo_id) ↔
   PyText.strip lin = cbio_id +:+ String tab efo_id
   ∧ count_char tab cbio_id = 0%nat ∧ count_char tab efo_id = 0%nat)
  ∧ (parse_line lin = None ↔ count_char tab (PyText.strip lin) ≠ 1%nat).
Proof.
  unfold parse_line, PyText.split.
  destruct (PyText.split_fields tab (PyText.strip lin)) as [f fs] eqn:Hs.
  pose proof (split_fields_spec _ _ _ _ Hs) as (Hf & Hlen & Hshape).
  split.
  - split.
    + destruct fs as [|g [|h fs]]; try done. intros [= -> ->].
      destruct Hshape as (rest & Hlin & Hrest). simpl in Hrest.
      pose proof (split_fields_spec _ _ _ _ Hrest) as (Hg & _ & Hg').
      simpl in Hg'. subst rest. done.
    + intros (Hlin & Hc & He). rewrite Hlin in Hs.
      rewrite split_fields_app in Hs by done.
      rewrite (split_fields_no_sep _ _ He) in Hs. simpl in Hs.
      by inversion Hs; subst.
  - rewrite <- Hlen. destruct fs as [|g [|h fs]]; simpl; split; try done; lia.
Qed.

Lemma parse_line_exactly_one_tab_witness :
  parse_line (tsv_line "paad_tcga" "EFO_0002618")
  = Some ("paad_tcga", "EFO_0002618").
Proof.
  apply (parse_line_exactly_one_tab (tsv_line "paad_tcga" "EFO_0002618")).
  split; [reflexivity|]. split; reflexivity.
Defined.

Lemma filed_under_app (efo_id : string) (ps qs : list (string * string)) :
  filed_under efo_id (ps ++ qs)
  = (filed_under efo_id ps ++ filed_under efo_id qs)%list.
Proof. unfold filed_under. by rewrite List.filter_app, fmap_app. Qed.

Lemma load_lines_files (lines : list string)
    (table0 table : gmap string (list string))
    (pairs0 : list (string * string)) :
  (∀ efo_id, table0 !! efo_id = table_entry efo_id pairs0) →
  load_lines lines table0 = Some table →
  ∃ pairs,
    Forall2 (λ lin p, parse_line lin = Some p) lines pairs
    ∧ ∀ efo_id, table !! efo_id = table_entry efo_id (pairs0 ++ pairs).
Proof.
  revert table0 pairs0. induction lines as [|lin lines IH];
    intros table0 pairs0 Hinv; simpl.
  - intros [= <-]. exists []. split; [constructor|].
    intros efo_id. by rewrite app_nil_r.
  - destruct (parse_line lin) as [[cbio_id efo]|] eqn:Hp; [|done].
    intros Hload.
    match type of Hload with
    | load_lines _ ?t = _ =>
        destruct (IH t (pairs0 ++ [(cbio_id, efo)])%list)
          as (pairs & Hall & Htab); [|exact Hload|]
    end.
    + intros efo_id. unfold table_entry. rewrite filed_under_app.
      pose proof (Hinv efo) as Hefo. pose proof (Hinv efo_id) as Hid.
      unfold table_entry in Hefo, Hid.
      unfold filed_under at 2. simpl.
      destruct (String.eqb_spec efo efo_id) as [<-|Hne]; simpl.
      * destruct (filed_under efo pairs0) as [|i ids] eqn:Hf.
        -- rewrite Hefo. by rewrite lookup_insert_eq.
        -- rewrite Hefo. by rewrite lookup_insert_eq.
      * rewrite app_nil_r.
        destruct (table0 !! efo); rewrite lookup_insert_ne by done; done.
    + exists ((cbio_id, efo) :: pairs). split; [by constructor|].
      intros efo_id. rewrite Htab. by rewrite <- app_assoc.
Qed.

(** X16.  When the loader returns, every line gave a pair, and the table
    files each first identifier under its second: the entry of an
    identifier is the list of the first fields of the lines that name it, in
    the order of the file and with repetitions; an identifier no line names
    has no entry, so no entry is an empty list.  The loader fails exactly
    when some line does not give a pair. *)
Theorem make_cbio_efo_map_groups (lines : list string) :
  (∀ table,
     _make_cbio_efo_map lines = Some table →
     ∃ pairs,
       Forall2 (λ lin p, parse_line lin = Some p) lines pairs
       ∧ (∀ efo_id, table !! efo_id = table_entry efo_id pairs)
       ∧ (∀ efo_id ids, table !! efo_id = Some ids → ids ≠ []))
  ∧ (_make_cbio_efo_map lines = None ↔
     ∃ lin, lin ∈ lines ∧ parse_line lin = None).
Proof.
  split.
  - intros table Hload.
    destruct (load_lines_files lines ∅ table []) as (pairs & Hall & Htab);
      [by intros efo_id; rewrite lookup_empty|done|].
    simpl in Htab.
    exists pairs. split; [done|]. split; [done|].
    intros efo_id ids. rewrite Htab. unfold table_entry.
    destruct (filed_under efo_id pairs); [done|]. by intros [= <-].
  - unfold _make_cbio_efo_map. generalize (∅ : gmap string (list string)).
    induction lines as [|lin lines IH]; intros table0; simpl.
    + split; [done|]. intros (lin & Hin & _). by apply elem_of_nil in Hin.
    + destruct (parse_line lin) as [[cbio_id efo]|] eqn:Hp.
      * rewrite IH. split.
        -- intros (l & Hin & Hl). exists l. split; [by right|done].
        -- intros (l & [->|Hin]%elem_of_cons & Hl); [congruence|].
           by exists l.
      * split; [|done]. intros _. exists lin. split; [left|done].
Qed.

Lemma make_cbio_efo_map_groups_witness :
  ∃ table,
    _make_cbio_efo_map [tsv_line "paad_a" "EFO1"; tsv_line "luad_a" "EFO2";
                        tsv_line "paad_b" "EFO1"] = Some table
    ∧ table !! "EFO1" = Some ["paad_a"; "paad_b"].
Proof.
  destruct (_make_cbio_efo_map
              [tsv_line "paad_a" "EFO1"; tsv_line "luad_a" "EFO2";
               tsv_line "paad_b" "EFO1"]) as [table|] eqn:Hload;
    [|vm_compute in Hload; discriminate].
  destruct (make_cbio_efo_map_groups
              [tsv_line "paad_a" "EFO1"; tsv_line "luad_a" "EFO2";
               tsv_line "paad_b" "EFO1"]) as [H _].
  destruct (H table Hload) as (pairs & Hall & Htab & _).
  exists table. split; [reflexivity|]. rewrite Htab.
  inversion Hall as [|? p1 ? ps1 H1 Hall1]; subst.
  inversion Hall1 as [|? p2 ? ps2 H2 Hall2]; subst.
  inversion Hall2 as [|? p3 ? ps3 H3 Hall3]; subst.
  inversion Hall3; subst.
  vm_compute in H1, H2, H3.
  inversion H1; inversion H2; inversion H3; subst. reflexivity.
Defined.

(** ** The reference sent by [respond_find_immediate_relation] *)

(** X17.  The loop over the reference keys has no [break], so the last key
    that is present wins.  Since ['name'] is always present and comes after
    ['HGNC'], ['FPLX'] and ['CHEBI'], the query never uses those three: it
    is sent the ['TEXT'] reference of the agent when there is one, and its
    name otherwise (or a [db_refs] entry called ['name'], which overwrites
    the name). *)
Theorem input_ref_last_key_wins :
  (∀ ref_dict : gmap string string,
     MSA.input_ref ref_dict
     = match ref_dict !! "TEXT" with
       | Some v => Some v
       | None =>
           match ref_dict !! "name" with
           | Some v => Some v
           | None =>
               match ref_dict !! "CHEBI" with
               | Some v => Some v
               | None =>
                   match ref_dict !! "FPLX" with
                   | Some v => Some v
                   | None => ref_dict !! "HGNC"
                   end
               end
           end
       end)
  ∧ (∀ a : Agent,
       MSA.input_for (Some a)
       = Some match db_refs a !! "TEXT" with
              | Some t => t
              | None =>
                  match db_refs a !! "name" with
                  | Some n => n
                  | None => name a
                  end
              end).
Proof.
  assert (Hgen : ∀ ref_dict : gmap string string,
     MSA.input_ref ref_dict
     = match ref_dict !! "TEXT" with
       | Some v => Some v
       | None =>
           match ref_dict !! "name" with
           | Some v => Some v
           | None =>
               match ref_dict !! "CHEBI" with
               | Some v => Some v
               | None =>
                   match ref_dict !! "FPLX" with
                   | Some v => Some v
                   | None => ref_dict !! "HGNC"
                   end
               end
           end
       end).
  { intros ref_dict. unfold MSA.input_ref, MSA.ref_keys. cbn [foldl].
    destruct (ref_dict !! "TEXT"), (ref_dict !! "name"),
      (ref_dict !! "CHEBI"), (ref_dict !! "FPLX"), (ref_dict !! "HGNC"); done. }
  split; [exact Hgen|].
  intros a. unfold MSA.input_for. rewrite Hgen. unfold MSA.ref_dict_of.
  rewrite !lookup_union. rewrite lookup_singleton_eq.
  rewrite (lookup_singleton_ne "name" "TEXT") by done.
  destruct (db_refs a !! "TEXT"), (db_refs a !! "name"); done.
Qed.
